(** * Employee task tracker: the Flask backend (backend/app.py)

    A shallow embedding of the request handlers of the task-tracking API
    and the properties of its authorisation and task-visibility rules.

    Conventions of the embedding.
    - Python values that travel through JSON bodies and ORM attributes are
      values of [pyval]: [None], integers and strings.  JSON booleans,
      floats, arrays and objects are outside the modelled request language,
      and so are characters from code point 256 on.
    - A table is the list of its rows in insertion order; a handler is a
      function from the store to a response and the store it leaves.
    - SQL comparisons follow the three-valued logic of the database: a
      comparison with NULL is never true.  SQLite's conversion of numeric
      text by column affinity is not modelled: an integer and a string are
      different values.  Integers bound to a query are those of the signed
      64-bit range ([int64]); the driver's OverflowError beyond it is not
      modelled.
    - The clock ([datetime.utcnow], [time.time]) is an explicit argument.
    - Library functions whose internals are not part of the program
      ([datetime.fromisoformat], the HMAC of the token signer, the password
      hash) are Section variables. *)

From Stdlib Require Import ZArith Lia Ascii String.
From Stdlib Require Import SpecFloat.
From Stdlib Require Import Reals Lra.
From stdpp Require Import base option list gmap strings sorting.

Local Open Scope Z_scope.
#[local] Set Warnings "-clear-no-such-hyp".

(** ** Python values *)

Inductive pyval :=
| PNone
| PInt (n : Z)
| PStr (s : string).

#[global] Instance pyval_eq_dec : EqDecision pyval.
Proof. solve_decision. Defined.

(** Truth value testing: [None], [0] and the empty string are false. *)
Definition truthy (v : pyval) : bool :=
  match v with
  | PNone => false
  | PInt n => bool_decide (n ≠ 0)
  | PStr s => bool_decide (s ≠ "")
  end.

(** [v is not None] *)
Definition is_not_none (v : pyval) : bool :=
  match v with PNone => false | _ => true end.

(** [a != b] on Python values *)
Definition py_ne (a b : pyval) : bool := bool_decide (a ≠ b).

(** [a or b] *)
Definition py_or (a b : pyval) : pyval := if truthy a then a else b.

(** A JSON object, and [dict.get] with and without a default. *)
Abbreviation dict := (gmap string pyval).

Definition get (d : dict) (key : string) : pyval := default PNone (d !! key).
Definition get_default (d : dict) (key : string) (dflt : pyval) : pyval :=
  default dflt (d !! key).

(** [request.get_json(force=True, silent=True) or {}]: a body that does not
    parse is [None], and so becomes the empty object. *)
Definition json_or_empty (body : option dict) : dict := default ∅ body.

(** SQL [a = b] and [a != b] evaluating to TRUE. *)
Definition sql_eq (a b : pyval) : bool :=
  match a, b with
  | PNone, _ | _, PNone => false
  | _, _ => bool_decide (a = b)
  end.

Definition sql_ne (a b : pyval) : bool :=
  match a, b with
  | PNone, _ | _, PNone => false
  | _, _ => bool_decide (a ≠ b)
  end.

(** A calendar date, the value of a [db.Date] column. *)
Record date := Date { year : Z; month : Z; day : Z }.

(** What a Python call does: return a value or raise. *)
Inductive raised (A : Type) :=
| Return (a : A)
| Raise (exc : string).
Arguments Return {A} a.
Arguments Raise {A} exc.

(** ** The data model *)

Module Employee.
Record t := mk {
  id : Z;
  name : string;
  title : string;
  email : string;
  role : string;
  password_hash : string
}.
End Employee.

Module Task.
Record t := mk {
  id : Z;
  title : pyval;
  description : pyval;
  status : pyval;
  employee_id : pyval;
  due_date : option date;
  created_at : Z
}.

Definition set_employee_id (v : pyval) (task : t) : t :=
  mk (id task) (title task) (description task) (status task) v
     (due_date task) (created_at task).
Definition set_status (v : pyval) (task : t) : t :=
  mk (id task) (title task) (description task) v (employee_id task)
     (due_date task) (created_at task).
Definition set_description (v : pyval) (task : t) : t :=
  mk (id task) (title task) v (status task) (employee_id task)
     (due_date task) (created_at task).
Definition set_due_date (d : date) (task : t) : t :=
  mk (id task) (title task) (description task) (status task)
     (employee_id task) (Some d) (created_at task).
End Task.

#[global] Instance date_eq_dec : EqDecision date.
Proof. solve_decision. Defined.
#[global] Instance Task_eq_dec : EqDecision Task.t.
Proof. solve_decision. Defined.

(** The database: the two tables. *)
Record db := Db {
  employees : list Employee.t;
  tasks : list Task.t
}.

(** ** Queries *)

(** [Employee.query.get(key)]: the row with that primary key, for a key
    that is [None] or an integer of the signed 64-bit range, the keys the
    database holds and its driver binds.  Primary keys are integers: no row
    has the key [None], and a string is not compared as a number (see the
    conventions above), so that the lookup of a string finds nothing. *)
Definition Employee_get (st : db) (key : pyval) : option Employee.t :=
  match key with
  | PInt n => head (filter (λ e, Employee.id e = n) (employees st))
  | _ => None
  end.

(** [Task.query.get(task_id)], the id coming from an [<int:task_id>] route. *)
Definition Task_get (st : db) (task_id : Z) : option Task.t :=
  head (filter (λ task, Task.id task = task_id) (tasks st)).

(** The primary key of the next inserted row: one more than the largest. *)
Definition next_id (ids : list Z) : Z := 1 + foldr Z.max 0 ids.

(** The UPDATE issued by [db.session.commit()] for a modified task. *)
Definition save_task (task : Task.t) (st : db) : db :=
  Db (employees st)
     ((λ row, if decide (Task.id row = Task.id task) then task else row)
        <$> tasks st).

(** The INSERT issued by [db.session.add(task); db.session.commit()]. *)
Definition add_task (task : Task.t) (st : db) : db :=
  Db (employees st) (tasks st ++ [task]).

(** [order_by(Task.created_at.desc())] *)
Definition newer_first (a b : Task.t) : Prop :=
  Task.created_at b ≤ Task.created_at a.

#[global] Instance newer_first_dec a b : Decision (newer_first a b).
Proof. unfold newer_first. apply _. Defined.

(** ** Responses *)

Inductive response (A : Type) :=
| Json (code : Z) (body : A)
| Error (code : Z) (message : string)
| Unhandled (exc : string).
Arguments Json {A} code body.
Arguments Error {A} code message.
Arguments Unhandled {A} exc.

(** ** Strings: [str.lower] and [str.strip]

    A string is the sequence of its code points, each below 256 (Basic
    Latin and Latin-1 Supplement). *)

(** The letters A to Z, and À to Þ without the multiplication sign. *)
Definition lower_ascii (c : ascii) : ascii :=
  let n := N_of_ascii c in
  if ((65 <=? n) && (n <=? 90)
      || (192 <=? n) && (n <=? 222) && negb (n =? 215))%N
  then ascii_of_N (n + 32) else c.

Fixpoint lower (s : string) : string :=
  match s with
  | EmptyString => EmptyString
  | String c rest => String (lower_ascii c) (lower rest)
  end.

(** What [str.strip] removes: the space, the control characters tab to
    carriage return and file separator to unit separator, next line and
    the no-break space. *)
Definition is_space (c : ascii) : bool :=
  let n := N_of_ascii c in
  ((n =? 32) || ((9 <=? n) && (n <=? 13)) || ((28 <=? n) && (n <=? 31))
   || (n =? 133) || (n =? 160))%N.

Fixpoint lstrip (s : string) : string :=
  match s with
  | String c rest => if is_space c then lstrip rest else s
  | EmptyString => EmptyString
  end.

Fixpoint rstrip (s : string) : string :=
  match s with
  | EmptyString => EmptyString
  | String c rest =>
      match rstrip rest with
      | EmptyString => if is_space c then EmptyString else String c EmptyString
      | kept => String c kept
      end
  end.

Definition strip (s : string) : string := rstrip (lstrip s).

(** ** The token serializer

    [URLSafeTimedSerializer(SECRET_KEY, salt="employee-auth")] seen after
    the token text has been split at its separators: the payload, the
    issuance timestamp and the signature over both.  The keyed hash is the
    variable [get_signature]; nothing is assumed about it. *)

Record token := Token {
  token_payload : dict;
  token_timestamp : Z;
  token_signature : string
}.

Inductive unsigned :=
| Loaded (payload : dict)
| BadSignature
| SignatureExpired.   (* a subclass of BadSignature *)

Section Serializer.
Variable get_signature : dict → Z → string.

(** [serializer.dumps(obj)] at time [now] *)
Definition dumps (now : Z) (obj : dict) : token :=
  Token obj now (get_signature obj now).

(** [serializer.loads(tok, max_age=max_age)] at time [now]: the signature
    is checked first, then the age of the timestamp. *)
Definition loads (now : Z) (tok : token) (max_age : Z) : unsigned :=
  if bool_decide (token_signature tok
                  = get_signature (token_payload tok) (token_timestamp tok))
  then
    let age := now - token_timestamp tok in
    if bool_decide (age > max_age) then SignatureExpired
    else if bool_decide (age < 0) then SignatureExpired
    else Loaded (token_payload tok)
  else BadSignature.
End Serializer.

(** ** Authorization middleware *)

(** The [Authorization] header of a request. *)
Inductive authorization :=
| NotBearer                (* absent, or not starting with "Bearer " *)
| BearerGarbled            (* "Bearer " followed by text that is no token *)
| Bearer (tok : token).

Section Auth.
Variable get_signature : dict → Z → string.
(** [int(os.environ.get("TOKEN_TTL_SECONDS", 60 * 60 * 24 * 7))] *)
Variable TOKEN_TTL_SECONDS : Z.
Variable check_password_hash : string → string → bool.

Definition get_current_user (st : db) (now : Z) (auth_header : authorization)
  : option Employee.t :=
  match auth_header with
  | NotBearer => None
  | BearerGarbled => None          (* loads raises BadSignature *)
  | Bearer tok =>
      match loads get_signature now tok TOKEN_TTL_SECONDS with
      | Loaded payload =>
          let user_id := get payload "id" in
          if negb (truthy user_id) then None
          else Employee_get st user_id
      | BadSignature | SignatureExpired => None
      end
  end.

(** The decorator: [fn] receives the resolved caller ([g.current_user]). *)
Definition require_auth {A} (role : option string)
    (fn : Employee.t → db → response A * db)
    (st : db) (now : Z) (auth_header : authorization) : response A * db :=
  match get_current_user st now auth_header with
  | None => (Error 401 "Unauthorized", st)
  | Some user =>
      if match role with
         | Some r => bool_decide (r ≠ "") && bool_decide (Employee.role user ≠ r)
         | None => false
         end
      then (Error 403 "Forbidden", st)
      else fn user st
  end.

(** POST /auth/login.  The body of the answer is the token and the user. *)
Definition login (st : db) (now : Z) (body : option dict)
  : response (token * Employee.t) :=
  let payload := json_or_empty body in
  match py_or (get payload "email") (PStr "") with
  | PStr e =>
      let email := strip (lower e) in
      let password := py_or (get payload "password") (PStr "") in
      if bool_decide (email = "") || negb (truthy password) then
        Error 400 "Email and password are required."
      else
        match head (filter (λ row, Employee.email row = email) (employees st)),
              password with
        | None, _ => Error 401 "Invalid credentials."
        | Some employee, PStr pw =>
            if check_password_hash (Employee.password_hash employee) pw then
              Json 200
                (dumps get_signature now
                   {[ "id" := PInt (Employee.id employee);
                      "role" := PStr (Employee.role employee) ]},
                 employee)
            else Error 401 "Invalid credentials."
        | Some _, _ => Unhandled "AttributeError" (* no [encode] on an int *)
        end
  | _ => Unhandled "AttributeError"            (* no [lower] on an int *)
  end.
End Auth.

(** ** Task visibility and mutation *)

(** The query string of GET /tasks as [request.args.get] returns it:
    [employee_id] is read with [type=int], so it is [None] when absent or
    not an integer.  The admin's filter compares the column with an integer
    of the signed 64-bit range, the integers the driver binds. *)
Record task_args := TaskArgs {
  arg_status : option string;
  arg_employee_id : option Z
}.

Definition get_tasks (st : db) (current_user : Employee.t) (args : task_args)
  : list Task.t :=
  let status := arg_status args in
  let employee_id := arg_employee_id args in
  let query := tasks st in
  let query :=
    match status with
    | Some s =>
        if bool_decide (s ≠ "")
        then filter (λ task, sql_eq (Task.status task) (PStr s)) query
        else query
    | None => query
    end in
  let query :=
    if bool_decide (Employee.role current_user ≠ "admin") then
      filter (λ task, sql_eq (Task.employee_id task)
                             (PInt (Employee.id current_user))) query
    else
      match employee_id with
      | Some n =>
          if bool_decide (n ≠ 0)
          then filter (λ task, sql_eq (Task.employee_id task) (PInt n)) query
          else query
      | None => query
      end in
  merge_sort newer_first query.

(** The value an INSERT stores in the [status] column: the column default
    replaces an attribute that is [None]. *)
Definition status_or_default (status : pyval) : pyval :=
  match status with PNone => PStr "pending" | _ => status end.

Section Tasks.
(** [datetime.fromisoformat(value).date()]; [None] stands for ValueError. *)
Variable fromisoformat : string → option date.

Definition parse_date (value : pyval) : raised (option date) :=
  if negb (truthy value) then Return None
  else
    match value with
    | PStr s => Return (fromisoformat s)
    | _ => Raise "TypeError"        (* fromisoformat: argument must be str *)
    end.

(** POST /tasks; [now] is the clock read by the [created_at] default. *)
Definition create_task (current_user : Employee.t) (now : Z)
    (body : option dict) (st : db) : response Task.t * db :=
  let payload := json_or_empty body in
  let title := get payload "title" in
  if negb (truthy title) then (Error 400 "Title is required.", st)
  else
    let status := get_default payload "status" (PStr "pending") in
    let description := get payload "description" in
    let employee_id := get payload "employee_id" in
    match parse_date (get payload "due_date") with
    | Raise exc => (Unhandled exc, st)
    | Return due_date =>
        let insert employee_id :=
          let task :=
            Task.mk (next_id (Task.id <$> tasks st)) title description
                    (status_or_default status) employee_id due_date now in
          (Json 201 task, add_task task st) in
        if bool_decide (Employee.role current_user ≠ "admin") then
          insert (PInt (Employee.id current_user))
        else if truthy employee_id
                && bool_decide (Employee_get st employee_id = None) then
          (Error 404 "Employee not found.", st)
        else insert employee_id
    end.

(** PUT /tasks/<int:task_id> *)
Definition update_task (current_user : Employee.t) (task_id : Z)
    (body : option dict) (st : db) : response Task.t * db :=
  match Task_get st task_id with
  | None => (Error 404 "Task not found.", st)
  | Some task =>
      if bool_decide (Employee.role current_user ≠ "admin")
         && py_ne (Task.employee_id task) (PInt (Employee.id current_user))
      then (Error 403 "Forbidden", st)
      else
        let payload := json_or_empty body in
        let status := get payload "status" in
        let description := get payload "description" in
        let employee_id := get payload "employee_id" in
        match parse_date (get payload "due_date") with
        | Raise exc => (Unhandled exc, st)
        | Return due_date =>
            let reassigned :=
              if bool_decide (Employee.role current_user = "admin")
                 && is_not_none employee_id then
                if truthy employee_id
                   && bool_decide (Employee_get st employee_id = None)
                then None
                else Some (Task.set_employee_id employee_id task)
              else Some task in
            match reassigned with
            | None => (Error 404 "Employee not found.", st)
            | Some task =>
                let task :=
                  if truthy status then Task.set_status status task
                  else task in
                let task :=
                  if is_not_none description
                  then Task.set_description description task else task in
                let task :=
                  match due_date with
                  | Some d => Task.set_due_date d task
                  | None => task
                  end in
                (Json 200 task, save_task task st)
            end
        end
  end.
End Tasks.

(** ** Numbers: Python [int] and [float] (IEEE 754 binary64)

    A float is a [spec_float] of the Standard Library.  An operation of
    IEEE 754 returns the float nearest to its exact result, ties going to
    the even significand; the operations below are written that way, from
    the exact result as a fraction of two integers. *)

Definition prec : Z := 53.
Definition emax : Z := 1024.

Inductive number :=
| Int (n : Z)
| Float (x : spec_float).

(** [num / den] rounded to the nearest integer, ties to even ([den > 0]). *)
Definition round_half_even (num den : Z) : Z :=
  let q := num / den in
  match 2 * (num mod den) ?= den with
  | Lt => q
  | Gt => q + 1
  | Eq => if Z.even q then q else q + 1
  end.

(** The fraction [num / den] divided by [2 ^ e], for any sign of [e]. *)
Definition scaled (num den e : Z) : Z * Z :=
  if 0 <=? e then (num, den * 2 ^ e) else (num * 2 ^ (- e), den).

(** The exponent of the power of two at or below [num / den], both
    positive: [2 ^ ilog2 ≤ num / den < 2 ^ (ilog2 + 1)]. *)
Definition ilog2 (num den : Z) : Z :=
  let d := Z.log2 num - Z.log2 den in
  let '(n, m) := scaled num den d in
  if m <=? n then d else d - 1.

(** The float of sign [s] and value [m * 2 ^ e]; past the largest exponent
    it is an infinity. *)
Definition finite (s : bool) (m e : Z) : spec_float :=
  match m with
  | Zpos p => if e <=? emax - prec then S754_finite s p e else S754_infinity s
  | _ => S754_zero s
  end.

(** The float of sign [s] nearest to [num / den] ([0 ≤ num], [0 < den]):
    the quotient is cut to 53 significant bits, or at the exponent of the
    subnormal numbers, and rounded there. *)
Definition nearest_float (s : bool) (num den : Z) : spec_float :=
  if num =? 0 then S754_zero s
  else
    let e := Z.max (ilog2 num den - (prec - 1)) (3 - emax - prec) in
    let '(n, d) := scaled num den e in
    let m := round_half_even n d in
    if m =? 2 ^ prec then finite s (2 ^ (prec - 1)) (e + 1) else finite s m e.

(** [float(n)] *)
Definition float_of_int (n : Z) : spec_float :=
  nearest_float (n <? 0) (Z.abs n) 1.

(** [a / b] on two ints: the float nearest to the quotient.  The handler
    divides only after testing that [b] is not 0. *)
Definition true_div (a b : Z) : spec_float :=
  if b =? 0 then S754_nan
  else nearest_float (xorb (a <? 0) (b <? 0)) (Z.abs a) (Z.abs b).

(** [x * y] on two floats: the float nearest to the product. *)
Definition float_mul (x y : spec_float) : spec_float :=
  match x, y with
  | S754_finite sx mx ex, S754_finite sy my ey =>
      let '(n, d) := scaled (Zpos mx * Zpos my) 1 (- (ex + ey)) in
      nearest_float (xorb sx sy) n d
  | _, _ => SFmul prec emax x y
  end.

(** The float a decimal with two fractional digits denotes: the float
    nearest to [h / 100], with the sign [s]. *)
Definition decimal_float (s : bool) (h : Z) : spec_float :=
  nearest_float s h 100.

(** [round(x, 2)] on a float: the exact binary value is rounded, ties to
    even, to a decimal with two fractional digits, and the float that
    decimal denotes is returned. *)
Definition float_round2 (x : spec_float) : spec_float :=
  match x with
  | S754_finite s m e =>
      let '(n, d) := scaled (Zpos m * 100) 1 (- e) in
      decimal_float s (round_half_even n d)
  | _ => x
  end.

(** [round(x, 2)]: an int is returned unchanged. *)
Definition round2 (x : number) : number :=
  match x with
  | Int n => Int n
  | Float f => Float (float_round2 f)
  end.

(** The float of a decimal literal with two fractional digits, [33.33]
    being [decimal2 3333]. *)
Definition decimal2 (hundredths : Z) : spec_float :=
  decimal_float (hundredths <? 0) (Z.abs hundredths).

(** ** Dashboard *)

Record summary := Summary {
  total_tasks : Z;
  completed_tasks : Z;
  pending_tasks : Z;
  completion_rate : number;
  employee_count : Z
}.

(** [Query.count()] *)
Definition count {A} (rows : list A) : Z := Z.of_nat (length rows).

(** GET /api/dashboard *)
Definition get_dashboard_summary (st : db) : summary :=
  let total_tasks := count (tasks st) in
  let completed_tasks :=
    count (filter (λ task, sql_eq (Task.status task) (PStr "completed"))
                  (tasks st)) in
  let pending_tasks :=
    count (filter (λ task, sql_ne (Task.status task) (PStr "completed"))
                  (tasks st)) in
  let employee_count := count (employees st) in
  let completion_rate :=
    if bool_decide (total_tasks ≠ 0)
    then Float (float_mul (true_div completed_tasks total_tasks)
                          (float_of_int 100))
    else Int 0 in
  Summary total_tasks completed_tasks pending_tasks
          (round2 completion_rate) employee_count.

(** ** Seed data *)

Section Seed.
Variable generate_password_hash : string → string.

(** [seed_data()]: the flush gives the three employees the next primary
    keys, and the tasks refer to them. *)
Definition seed_data (now : Z) (st : db) : db :=
  if bool_decide (count (employees st) > 0) then st
  else
    let e := next_id (Employee.id <$> employees st) in
    let new_employees :=
      [ Employee.mk e "Avery Diaz" "Engineering Manager"
          "avery@example.com" "admin" (generate_password_hash "admin123");
        Employee.mk (e + 1) "Morgan Lee" "Product Designer"
          "morgan@example.com" "employee" (generate_password_hash "design123");
        Employee.mk (e + 2) "Riley Patel" "Backend Engineer"
          "riley@example.com" "employee" (generate_password_hash "build123") ] in
    let t := next_id (Task.id <$> tasks st) in
    let new_tasks :=
      [ Task.mk t (PStr "Implement authentication")
          (PStr "Add login flow and secure the API endpoints.")
          (PStr "in_progress") (PInt e) None now;
        Task.mk (t + 1) (PStr "Refresh dashboard visuals")
          (PStr "Update the UI to match the new design system.")
          (PStr "pending") (PInt (e + 1)) None now;
        Task.mk (t + 2) (PStr "Optimize task queries")
          (PStr "Reduce dashboard latency by improving the task queries.")
          (PStr "completed") (PInt (e + 2)) None now ] in
    Db (employees st ++ new_employees) (tasks st ++ new_tasks).
End Seed.

(** ** Routes: the handlers behind [require_auth] *)

Section Routes.
Variable get_signature : dict → Z → string.
Variable TOKEN_TTL_SECONDS : Z.
Variable fromisoformat : string → option date.

Let auth {A} := @require_auth get_signature TOKEN_TTL_SECONDS A.

(** GET /auth/me *)
Definition route_current_user : db → Z → authorization → response Employee.t * db :=
  auth None (λ user st, (Json 200 user, st)).

(** GET /tasks *)
Definition route_get_tasks (args : task_args)
  : db → Z → authorization → response (list Task.t) * db :=
  auth None (λ user st, (Json 200 (get_tasks st user args), st)).

(** POST /tasks *)
Definition route_create_task (body : option dict)
    (st : db) (now : Z) : authorization → response Task.t * db :=
  auth None (λ user, create_task fromisoformat user now body) st now.

(** PUT /tasks/<int:task_id> *)
Definition route_update_task (task_id : Z) (body : option dict)
  : db → Z → authorization → response Task.t * db :=
  auth None (λ user, update_task fromisoformat user task_id body).

(** GET /api/dashboard *)
Definition route_get_dashboard_summary
  : db → Z → authorization → response summary * db :=
  auth (Some "admin") (λ _ st, (Json 200 (get_dashboard_summary st), st)).
End Routes.

(** ** A concrete instance, for examples *)

Module Demo.
(** A reader of [YYYY-MM-DD] restricted to the dates used below. *)
Definition fromisoformat (s : string) : option date :=
  if bool_decide (s = "2025-01-31") then Some (Date 2025 1 31)
  else if bool_decide (s = "2024-12-24") then Some (Date 2024 12 24)
  else None.

Definition get_signature (payload : dict) (timestamp : Z) : string :=
  match get payload "id" with
  | PInt 1 => "sig-1"
  | PInt 2 => "sig-2"
  | _ => "sig"
  end.

Definition generate_password_hash (password : string) : string :=
  ("hash:" ++ password)%string.

Definition TOKEN_TTL_SECONDS : Z := 60 * 60 * 24 * 7.

(** The store after the first start, at time 1000. *)
Definition seeded : db := seed_data generate_password_hash 1000 (Db [] []).

Definition avery : Employee.t :=
  Employee.mk 1 "Avery Diaz" "Engineering Manager" "avery@example.com"
              "admin" "hash:admin123".
Definition morgan : Employee.t :=
  Employee.mk 2 "Morgan Lee" "Product Designer" "morgan@example.com"
              "employee" "hash:design123".
Definition riley : Employee.t :=
  Employee.mk 3 "Riley Patel" "Backend Engineer" "riley@example.com"
              "employee" "hash:build123".

(** A store of [total] tasks, the first [done] of them completed. *)
Definition batch (total done : nat) : db :=
  Db [] ((λ i, Task.mk (Z.of_nat i + 1) (PStr "Review") PNone
                 (PStr (if (i <? done)%nat then "completed" else "pending"))
                 PNone None 1000)
         <$> seq 0 total).
End Demo.

(** ** Employee serialisation and listing *)

(** [Employee.to_dict] *)
Definition Employee_to_dict (employee : Employee.t) : dict :=
  {[ "id" := PInt (Employee.id employee);
     "name" := PStr (Employee.name employee);
     "title" := PStr (Employee.title employee);
     "email" := PStr (Employee.email employee);
     "role" := PStr (Employee.role employee) ]}.

(** [order_by(Employee.name)]: the byte order of the database's default
    collation. *)
Definition by_name (a b : Employee.t) : Prop :=
  String.leb (Employee.name a) (Employee.name b) = true.

#[global] Instance by_name_dec a b : Decision (by_name a b).
Proof. unfold by_name. apply _. Defined.

(** The body of GET /employees *)
Definition get_employees (st : db) : list dict :=
  Employee_to_dict <$> merge_sort by_name (employees st).

(** GET /employees, behind [require_auth(role="admin")] *)
Definition route_get_employees (get_signature : dict → Z → string)
    (TOKEN_TTL_SECONDS : Z)
  : db → Z → authorization → response (list dict) * db :=
  require_auth get_signature TOKEN_TTL_SECONDS (Some "admin")
    (λ _ st, (Json 200 (get_employees st), st)).

(** GET /auth/me with the body [g.current_user.to_dict()] *)
Definition route_auth_me (get_signature : dict → Z → string)
    (TOKEN_TTL_SECONDS : Z)
  : db → Z → authorization → response dict * db :=
  require_auth get_signature TOKEN_TTL_SECONDS None
    (λ user st, (Json 200 (Employee_to_dict user), st)).

(** ** Schema check at start-up *)

(** The database file as [ensure_schema] meets it: absent, or present with
    what the inspector answers for the columns of [employees], their names
    or an exception. *)
Abbreviation database_file := (option (raised (list string))).

Definition required_columns : gset string :=
  {[ "id"; "name"; "title"; "email"; "role"; "password_hash" ]}.

(** [ensure_schema()]: the file it leaves; [None] once the tables are
    dropped and the file removed. *)
Definition ensure_schema (file : database_file) : database_file :=
  match file with
  | None => None
  | Some (Return columns) =>
      let employee_columns : gset string := list_to_set columns in
      if bool_decide (required_columns ⊆ employee_columns) then file
      else None
  | Some (Raise _) => None
  end.

(** ** Vocabulary of the statements *)

(** The rows GET /tasks shows to a caller under the filters of a request:
    an empty status and an employee id 0 are no filters, and the employee
    filter is read for admins only. *)
Definition visible (user : Employee.t) (args : task_args) (task : Task.t)
  : Prop :=
  (∀ s, arg_status args = Some s → s ≠ "" → Task.status task = PStr s)
  ∧ (Employee.role user ≠ "admin" →
     Task.employee_id task = PInt (Employee.id user))
  ∧ (Employee.role user = "admin" →
     ∀ n, arg_employee_id args = Some n → n ≠ 0 →
          Task.employee_id task = PInt n).

#[global] Instance visible_dec user args task :
  Decision (visible user args task).
Proof.
  unfold visible.
  destruct (arg_status args) as [s|], (arg_employee_id args) as [n|].
  - refine (cast_if (decide
      ((s ≠ "" → Task.status task = PStr s)
       ∧ (Employee.role user ≠ "admin" →
          Task.employee_id task = PInt (Employee.id user))
       ∧ (Employee.role user = "admin" → n ≠ 0 →
          Task.employee_id task = PInt n)))); naive_solver.
  - refine (cast_if (decide
      ((s ≠ "" → Task.status task = PStr s)
       ∧ (Employee.role user ≠ "admin" →
          Task.employee_id task = PInt (Employee.id user))))); naive_solver.
  - refine (cast_if (decide
      ((Employee.role user ≠ "admin" →
        Task.employee_id task = PInt (Employee.id user))
       ∧ (Employee.role user = "admin" → n ≠ 0 →
          Task.employee_id task = PInt n)))); naive_solver.
  - refine (cast_if (decide
      (Employee.role user ≠ "admin" →
       Task.employee_id task = PInt (Employee.id user)))); naive_solver.
Defined.

(** A JSON value that is absent, null or a string. *)
Definition text_or_null (v : pyval) : bool :=
  match v with PInt _ => false | _ => true end.

(** The integers of the database and of its driver: signed, 64 bits. *)
Definition int64 (n : Z) : bool := (- 2 ^ 63 <=? n) && (n <? 2 ^ 63).

(** The employee filter of a query string is an integer the driver binds. *)
Definition filter_in_range (args : task_args) : bool :=
  match arg_employee_id args with
  | Some n => int64 n
  | None => true
  end.

(** Primary keys are unique. *)
Definition tasks_keyed (st : db) : Prop := NoDup (Task.id <$> tasks st).
Definition employees_keyed (st : db) : Prop :=
  NoDup (Employee.id <$> employees st).

(** The contract of the password hash: a hash accepts its password. *)
Definition hash_accepts (generate_password_hash : string → string)
    (check_password_hash : string → string → bool) : Prop :=
  ∀ password,
    check_password_hash (generate_password_hash password) password = true.

(** A request body that carries an email and a password. *)
Definition credentials (email password : string) : option dict :=
  Some {[ "email" := PStr email; "password" := PStr password ]}.

(** A password check for the examples. *)
Definition demo_check_password_hash (pwhash password : string) : bool :=
  bool_decide (pwhash = Demo.generate_password_hash password).

(** The row POST /tasks builds from a body, for a given owner and date. *)
Definition new_task (st : db) (now : Z) (payload : dict) (owner : pyval)
    (due_date : option date) : Task.t :=
  Task.mk (next_id (Task.id <$> tasks st)) (get payload "title")
          (get payload "description")
          (status_or_default (get_default payload "status" (PStr "pending")))
          owner due_date now.

(** The row PUT /tasks/<id> writes for a body and a parsed date, leaving
    [employee_id] aside. *)
Definition updated_fields (payload : dict) (due_date : option date)
    (task : Task.t) : Task.t :=
  Task.mk (Task.id task) (Task.title task)
          (if is_not_none (get payload "description")
           then get payload "description" else Task.description task)
          (if truthy (get payload "status")
           then get payload "status" else Task.status task)
          (Task.employee_id task)
          (match due_date with Some d => Some d | None => Task.due_date task end)
          (Task.created_at task).

(** The NOT NULL constraint of [tasks.status] ([nullable=False]). *)
Definition status_not_null (st : db) : Prop :=
  Forall (λ task, Task.status task ≠ PNone) (tasks st).

(** An integer that refers to an employee: not 0, which Python takes for
    false, and of the range of the keys. *)
Definition employee_key (n : Z) : bool := bool_decide (n ≠ 0) && int64 n.

(** A JSON value that is absent, null or such an integer. *)
Definition key_or_null (v : pyval) : bool :=
  match v with
  | PNone => true
  | PInt n => employee_key n
  | PStr _ => false
  end.

(** No employee of the store has the key [n]. *)
Definition no_employee (st : db) (n : Z) : Prop :=
  Forall (λ employee, Employee.id employee ≠ n) (employees st).

#[global] Instance no_employee_dec st n : Decision (no_employee st n).
Proof. unfold no_employee. apply _. Defined.

(** A value that is an integer and the key of no employee. *)
Definition dangling (st : db) (v : pyval) : bool :=
  match v with
  | PInt n => bool_decide (no_employee st n)
  | _ => false
  end.

(** A due date that is absent, null, or a string that is empty or that
    [fromisoformat] does not read. *)
Definition no_date (fromisoformat : string → option date) (v : pyval) : bool :=
  match v with
  | PNone => true
  | PStr s => bool_decide (s = "") || bool_decide (fromisoformat s = None)
  | PInt _ => false
  end.

(** The tasks of the store marked completed. *)
Definition completed_rows (st : db) : list Task.t :=
  filter (λ task, Task.status task = PStr "completed") (tasks st).

(** [h / 100] is the percentage [100 * completed / total] rounded to two
    decimal places: no decimal with two places is nearer (at a tie, either
    neighbour). *)
Definition rounded_percentage (completed total h : Z) : Prop :=
  2 * Z.abs (h * total - 10000 * completed) ≤ total.

#[global] Instance rounded_percentage_dec completed total h :
  Decision (rounded_percentage completed total h).
Proof. unfold rounded_percentage. apply _. Defined.

#[global] Instance spec_float_eq_dec : EqDecision spec_float.
Proof. solve_decision. Defined.

(** The rate GET /api/dashboard computes from the two counts when there is
    at least one task. *)
Definition rate_of (completed total : Z) : spec_float :=
  float_round2 (float_mul (true_div completed total) (float_of_int 100)).

(** The operations of the Standard Library on the same operands: the
    division and the multiplication of [SpecFloat]. *)
Definition agrees_with_SpecFloat (n : Z) : bool :=
  let of_int k := binary_normalize prec emax k 0 false in
  forallb (λ b, forallb (λ a,
      bool_decide (true_div a b = SFdiv prec emax (of_int a) (of_int b))
      && bool_decide (float_mul (true_div a b) (float_of_int 100)
                      = SFmul prec emax (true_div a b) (of_int 100))
      && bool_decide (decimal2 (100 * a + b)
                      = SFdiv prec emax (of_int (100 * a + b)) (of_int 100)))
    (seqZ 0 (b + 1))) (seqZ 1 n).

(** The power of two of an integer exponent, as a real number. *)
Definition bpow (e : Z) : R := powerRZ 2 e.

(** A request that carries no acceptable credentials at time [now]: no
    bearer token, a garbled one, or a token with a wrong signature, an age
    outside [0, ttl] or a payload without a usable id. *)
Definition unauthenticated (get_signature : dict → Z → string) (ttl now : Z)
    (auth_header : authorization) : Prop :=
  match auth_header with
  | NotBearer | BearerGarbled => True
  | Bearer tok =>
      token_signature tok
      ≠ get_signature (token_payload tok) (token_timestamp tok)
      ∨ now - token_timestamp tok > ttl
      ∨ now - token_timestamp tok < 0
      ∨ truthy (get (token_payload tok) "id") = false
  end.

(** * Properties *)

(** ** Values and queries *)

Lemma sql_eq_int (v : pyval) (n : Z) : sql_eq v (PInt n) ↔ v = PInt n.
Proof.
  destruct v; simpl; [by split | apply bool_decide_spec | by split].
Qed.

Lemma sql_eq_str (v : pyval) (s : string) : sql_eq v (PStr s) ↔ v = PStr s.
Proof.
  destruct v; simpl; [by split | by split | apply bool_decide_spec].
Qed.

Lemma sql_ne_negb_eq (a b : pyval) :
  a ≠ PNone → b ≠ PNone → sql_ne a b = negb (sql_eq a b).
Proof.
  intros Ha Hb. destruct a, b; try done; simpl;
    by rewrite bool_decide_not.
Qed.

Lemma truthy_not_none (v : pyval) : truthy v = true → v ≠ PNone.
Proof. by destruct v. Qed.



(** The row found under a primary key has that key and is in the table. *)
Lemma Task_get_Some (st : db) (task_id : Z) (task : Task.t) :
  Task_get st task_id = Some task → Task.id task = task_id ∧ task ∈ tasks st.
Proof.
  unfold Task_get. intros H.
  assert (task ∈ filter (λ row, Task.id row = task_id) (tasks st)) as Hin.
  { destruct (filter _ (tasks st)) as [|x l] eqn:E; [done|].
    simpl in H. injection H as ->. left. }
  by apply list_elem_of_filter in Hin.
Qed.

(** After the UPDATE the primary key leads to the modified row. *)
Lemma Task_get_save_task (st : db) (task_id : Z) (task task' : Task.t) :
  Task_get st task_id = Some task → Task.id task' = task_id →
  Task_get (save_task task' st) task_id = Some task'.
Proof.
  unfold Task_get, save_task. simpl. intros H Hid.
  induction (tasks st) as [|row rows IH]; [done|].
  rewrite fmap_cons. rewrite filter_cons in H.
  destruct (decide (Task.id row = task_id)) as [Hrow|Hrow].
  - rewrite decide_True by congruence.
    rewrite filter_cons, decide_True by done. done.
  - rewrite decide_False by congruence.
    rewrite filter_cons, decide_False by done. auto.
Qed.

(** ** Listing tasks *)

Lemma get_tasks_elem (st : db) (user : Employee.t) (args : task_args)
    (task : Task.t) :
  task ∈ get_tasks st user args →
  task ∈ tasks st
  ∧ (Employee.role user ≠ "admin" →
     Task.employee_id task = PInt (Employee.id user)).
Proof.
  unfold get_tasks. rewrite merge_sort_Permutation.
  set (by_status := match arg_status args with
                    | Some s => _ | None => _ end).
  assert (∀ x, x ∈ by_status → x ∈ tasks st) as Hsub.
  { subst by_status. intros x. destruct (arg_status args) as [s|]; [|done].
    case_bool_decide; [|done]. rewrite list_elem_of_filter. tauto. }
  case_bool_decide as Hrole.
  - rewrite list_elem_of_filter, sql_eq_int. intros [Hown Hin]. auto.
  - intros Hin. split; [|done].
    destruct (arg_employee_id args) as [n|]; [|auto].
    case_bool_decide; [|auto].
    apply list_elem_of_filter in Hin. apply Hsub, Hin.
Qed.

(** C1. For every caller who is not an admin and every combination of the
    status and employee_id filters, every task that GET /tasks returns is
    a stored task whose [employee_id] is the caller's id: no task of
    another employee and no unassigned task is listed. *)
Theorem get_tasks_non_admin_only_own
    (st : db) (caller : Employee.t) (args : task_args) (task : Task.t) :
  Employee.role caller ≠ "admin" →
  task ∈ get_tasks st caller args →
  Task.employee_id task = PInt (Employee.id caller)
  ∧ Task.employee_id task ≠ PNone
  ∧ task ∈ tasks st.
Proof.
  intros Hrole Hin. apply get_tasks_elem in Hin as [Hin Hown].
  specialize (Hown Hrole). rewrite Hown. done.
Qed.

Lemma get_tasks_non_admin_only_own_witness :
  let task := Task.mk 2 (PStr "Refresh dashboard visuals")
                (PStr "Update the UI to match the new design system.")
                (PStr "pending") (PInt 2) None 1000 in
  Task.employee_id task = PInt (Employee.id Demo.morgan)
  ∧ Task.employee_id task ≠ PNone
  ∧ task ∈ tasks Demo.seeded.
Proof.
  intros task.
  apply (get_tasks_non_admin_only_own Demo.seeded Demo.morgan
           (TaskArgs (Some "pending") (Some 3)) task).
  - vm_compute. discriminate.
  - vm_compute. left.
Defined.

(** The same behind [require_auth]: the caller is the employee the token
    resolves to. *)
Lemma route_get_tasks_non_admin get_signature ttl args st now auth_header user :
  get_current_user get_signature ttl st now auth_header = Some user →
  Employee.role user ≠ "admin" →
  ∃ listed,
    route_get_tasks get_signature ttl args st now auth_header
    = (Json 200 listed, st)
    ∧ ∀ task, task ∈ listed →
              Task.employee_id task = PInt (Employee.id user).
Proof.
  intros Huser Hrole. unfold route_get_tasks, require_auth. rewrite Huser.
  eexists. split; [reflexivity|].
  intros task Hin. by apply get_tasks_elem in Hin as [_ Hown]; auto.
Qed.

#[global] Instance newer_first_total : Total newer_first.
Proof. intros a b. unfold newer_first. lia. Qed.

(** The list is ordered newest first. *)
Lemma get_tasks_sorted st user args :
  Sorted newer_first (get_tasks st user args).
Proof. unfold get_tasks. apply (Sorted_merge_sort newer_first). Qed.

(** ** Creating tasks *)

Lemma create_task_no_title fromisoformat caller now body st :
  truthy (get (json_or_empty body) "title") = false →
  create_task fromisoformat caller now body st
  = (Error 400 "Title is required.", st).
Proof. intros H. unfold create_task. by rewrite H. Qed.

(** A [due_date] that is neither a string nor empty raises before anything
    is stored. *)
Lemma create_task_raises fromisoformat caller now body st exc :
  truthy (get (json_or_empty body) "title") = true →
  parse_date fromisoformat (get (json_or_empty body) "due_date") = Raise exc →
  create_task fromisoformat caller now body st = (Unhandled exc, st).
Proof. intros Ht Hd. unfold create_task. by rewrite Ht, Hd. Qed.







Lemma parse_date_no_date fromisoformat v :
  no_date fromisoformat v = true → parse_date fromisoformat v = Return None.
Proof.
  destruct v as [|n|s]; [done|done|]. unfold parse_date. simpl.
  intros [Hs|Hs]%orb_prop; apply bool_decide_eq_true in Hs.
  - by rewrite bool_decide_false by (by intros []).
  - destruct (negb _); [done|]. by rewrite Hs.
Qed.

(** The lookup of an integer finds nothing exactly when no employee has
    it as key. *)
Lemma Employee_get_no_employee st n :
  Employee_get st (PInt n) = None ↔ no_employee st n.
Proof.
  unfold no_employee. simpl. split.
  - intros H. apply Forall_forall. intros e He Hid.
    assert (e ∈ filter (λ e, Employee.id e = n) (employees st)) as Hin.
    { by apply list_elem_of_filter. }
    destruct (filter _ (employees st)); [by apply elem_of_nil in Hin|done].
  - intros H. destruct (filter _ (employees st)) as [|e l] eqn:E; [done|].
    assert (e ∈ filter (λ e, Employee.id e = n) (employees st)) as Hin.
    { rewrite E. left. }
    apply list_elem_of_filter in Hin as [Hid Hin].
    rewrite Forall_forall in H. by destruct (H e Hin).
Qed.

Lemma employee_key_truthy n : employee_key n = true → truthy (PInt n) = true.
Proof. unfold employee_key. by intros [H _]%andb_prop. Qed.



(** ** Updating tasks *)

(** PUT /tasks/<id> once the task is found, the caller authorised and the
    date read. *)
Lemma update_task_authorized fromisoformat caller task_id body st task due_date :
  Task_get st task_id = Some task →
  Employee.role caller = "admin"
  ∨ Task.employee_id task = PInt (Employee.id caller) →
  parse_date fromisoformat (get (json_or_empty body) "due_date")
  = Return due_date →
  let payload := json_or_empty body in
  let employee_id := get payload "employee_id" in
  update_task fromisoformat caller task_id body st
  = if bool_decide (Employee.role caller = "admin") && is_not_none employee_id
    then
      if truthy employee_id && bool_decide (Employee_get st employee_id = None)
      then (Error 404 "Employee not found.", st)
      else
        let task' := updated_fields payload due_date
                       (Task.set_employee_id employee_id task) in
        (Json 200 task', save_task task' st)
    else
      let task' := updated_fields payload due_date task in
      (Json 200 task', save_task task' st).
Proof.
  intros Hget Hauth Hd. simpl. unfold update_task, py_ne.
  rewrite Hget, Hd.
  replace (bool_decide (Employee.role caller ≠ "admin")
           && bool_decide (Task.employee_id task ≠ PInt (Employee.id caller)))
    with false.
  2:{ symmetry. apply andb_false_iff. rewrite !bool_decide_eq_false.
      destruct Hauth; [left|right]; auto. }
  assert (∀ t : Task.t,
    (let t1 := if truthy (get (json_or_empty body) "status")
               then Task.set_status (get (json_or_empty body) "status") t
               else t in
     let t2 := if is_not_none (get (json_or_empty body) "description")
               then Task.set_description
                      (get (json_or_empty body) "description") t1
               else t1 in
     match due_date with Some d => Task.set_due_date d t2 | None => t2 end)
    = updated_fields (json_or_empty body) due_date t) as Hfields.
  { intros [i ti de s e dd c]. unfold updated_fields. simpl.
    destruct (truthy _), (is_not_none _), due_date; reflexivity. }
  simpl in Hfields.
  destruct (bool_decide (Employee.role caller = "admin")
            && is_not_none (get (json_or_empty body) "employee_id")).
  - destruct (truthy _ && _); [done|]. by rewrite Hfields.
  - by rewrite Hfields.
Qed.


(** The empty string is stored as it is, which is not null either. *)
Example update_task_empty_employee_id :
  Task.employee_id <$>
    Task_get (update_task Demo.fromisoformat Demo.avery 2
                (Some {[ "employee_id" := PStr "" ]}) Demo.seeded).2 2
  = Some (PStr "").
Proof. vm_compute. reflexivity. Qed.



(** C6, as stated, fails: the admin sends a due date that is no date, the
    status "completed" and the [employee_id] 7, the key of no employee, for
    task 2 of the seeded store; the answer is 404 and the supplied status
    does not apply: the task is still pending. *)
Lemma update_task_unknown_employee_cex :
  let body := Some {[ "due_date" := PStr "next friday";
                      "status" := PStr "completed";
                      "employee_id" := PInt 7 ]} in
  let result := update_task Demo.fromisoformat Demo.avery 2 body Demo.seeded in
  Employee.role Demo.avery = "admin"
  ∧ Demo.fromisoformat "next friday" = None
  ∧ Task.status <$> Task_get Demo.seeded 2 = Some (PStr "pending")
  ∧ result = (Error 404 "Employee not found.", Demo.seeded)
  ∧ Task.status <$> Task_get result.2 2 ≠ Some (PStr "completed").
Proof. vm_compute. by repeat split. Qed.

(** C6, amended. For every stored task and every caller who is an admin
    or the owner of the task, and every body whose [due_date] is absent,
    null or a string that does not parse as a date, whose status and
    description are each absent, null or a string and, for an admin, whose
    [employee_id] is absent, null or an integer that is not 0 and lies in
    the signed 64-bit range of the keys: the [due_date] stored under the
    task's id after PUT /tasks/<id> is the one stored before.  When an
    admin supplies an [employee_id] that is the key of no employee the call
    is refused with 404 and the store is unchanged; in every other case it
    answers 200 and the other supplied fields apply: a non-empty status, a
    description that is not null and, for an admin, an [employee_id] that
    is not null. *)
Theorem update_task_due_date_kept
    (fromisoformat : string → option date) (caller : Employee.t)
    (task_id : Z) (body : option dict) (st : db) (task : Task.t) :
  let payload := json_or_empty body in
  Task_get st task_id = Some task →
  Employee.role caller = "admin"
  ∨ Task.employee_id task = PInt (Employee.id caller) →
  no_date fromisoformat (get payload "due_date") = true →
  text_or_null (get payload "status") = true →
  text_or_null (get payload "description") = true →
  (Employee.role caller = "admin" →
   key_or_null (get payload "employee_id") = true) →
  let result := update_task fromisoformat caller task_id body st in
  Task.due_date <$> Task_get result.2 task_id = Some (Task.due_date task)
  ∧ if bool_decide (Employee.role caller = "admin")
       && dangling st (get payload "employee_id")
    then result = (Error 404 "Employee not found.", st)
    else
      ∃ task',
        result = (Json 200 task', save_task task' st)
        ∧ Task_get result.2 task_id = Some task'
        ∧ Task.due_date task' = Task.due_date task
        ∧ Task.status task'
          = (if truthy (get payload "status")
             then get payload "status" else Task.status task)
        ∧ Task.description task'
          = (if is_not_none (get payload "description")
             then get payload "description" else Task.description task)
        ∧ Task.employee_id task'
          = (if bool_decide (Employee.role caller = "admin")
                && is_not_none (get payload "employee_id")
             then get payload "employee_id" else Task.employee_id task)
        ∧ Task.title task' = Task.title task
        ∧ Task.created_at task' = Task.created_at task.
Proof.
  intros payload Hget Hauth Hdate _ _ Hkey result.
  apply parse_date_no_date in Hdate.
  pose proof (update_task_authorized fromisoformat caller task_id body st
                task None Hget Hauth Hdate) as E.
  cbv zeta in E. fold payload in E. fold result in E.
  destruct (Task_get_Some _ _ _ Hget) as [Hid _].
  assert (∀ task',
    result = (Json 200 task', save_task task' st) → Task.id task' = task_id →
    Task_get result.2 task_id = Some task') as Hstored.
  { intros task' -> Hid'. by apply (Task_get_save_task st task_id task). }
  destruct (decide (Employee.role caller = "admin")) as [Hadmin|Hadmin].
  - specialize (Hkey Hadmin). rewrite (bool_decide_true _ Hadmin) in E |- *.
    destruct (get payload "employee_id") as [|n|s] eqn:Heid; [| |done].
    + cbn [andb is_not_none dangling] in E |- *.
      split; [by rewrite (Hstored _ E Hid)|].
      eexists. split; [exact E|]. split; [by apply (Hstored _ E Hid)|done].
    + rewrite (employee_key_truthy n Hkey) in E.
      cbn [andb is_not_none dangling key_or_null] in E, Hkey |- *.
      destruct (decide (no_employee st n)) as [Hnone|Hnone].
      * rewrite (bool_decide_true _ Hnone).
        rewrite bool_decide_true in E by (by apply Employee_get_no_employee).
        rewrite E. simpl. by rewrite Hget.
      * rewrite (bool_decide_false _ Hnone).
        rewrite bool_decide_false in E
          by (by rewrite Employee_get_no_employee).
        split; [by rewrite (Hstored _ E Hid)|].
        eexists. split; [exact E|]. split; [by apply (Hstored _ E Hid)|done].
  - rewrite (bool_decide_false _ Hadmin) in E |- *.
    cbn [andb] in E |- *.
    split; [by rewrite (Hstored _ E Hid)|].
    eexists. split; [exact E|]. split; [by apply (Hstored _ E Hid)|done].
Qed.

Lemma update_task_due_date_kept_witness :
  let body := Some {[ "due_date" := PStr "next friday";
                      "status" := PStr "in_progress";
                      "employee_id" := PInt 3 ]} in
  let st := save_task
              (Task.mk 2 (PStr "Refresh dashboard visuals") PNone
                 (PStr "pending") (PInt 2) (Some (Date 2024 12 24)) 1000)
              Demo.seeded in
  let result := update_task Demo.fromisoformat Demo.avery 2 body st in
  Task.due_date <$> Task_get result.2 2 = Some (Some (Date 2024 12 24))
  ∧ ∃ task',
      result = (Json 200 task', save_task task' st)
      ∧ Task_get result.2 2 = Some task'
      ∧ Task.due_date task' = Some (Date 2024 12 24)
      ∧ Task.status task' = PStr "in_progress"
      ∧ Task.description task' = PNone
      ∧ Task.employee_id task' = PInt 3
      ∧ Task.title task' = PStr "Refresh dashboard visuals"
      ∧ Task.created_at task' = 1000.
Proof.
  intros body st result.
  refine (update_task_due_date_kept Demo.fromisoformat Demo.avery 2 body st
           (Task.mk 2 (PStr "Refresh dashboard visuals") PNone
              (PStr "pending") (PInt 2) (Some (Date 2024 12 24)) 1000)
           _ _ _ _ _ _).
  - vm_compute. reflexivity.
  - left. vm_compute. reflexivity.
  - vm_compute. reflexivity.
  - vm_compute. reflexivity.
  - vm_compute. reflexivity.
  - intros _. vm_compute. reflexivity.
Defined.

(** ** Tokens and caller resolution *)

Lemma loads_Loaded get_signature now tok max_age payload :
  loads get_signature now tok max_age = Loaded payload ↔
  token_signature tok
  = get_signature (token_payload tok) (token_timestamp tok)
  ∧ 0 ≤ now - token_timestamp tok ≤ max_age
  ∧ payload = token_payload tok.
Proof.
  unfold loads. repeat case_bool_decide; split; try done;
    try (intros (? & ? & ?); lia).
  - intros [= <-]. repeat split; [done|lia..|done].
  - intros (_ & _ & ->). done.
  - intros (? & _). done.
Qed.

Lemma loads_dumps get_signature now now' max_age obj :
  0 ≤ now' - now ≤ max_age →
  loads get_signature now' (dumps get_signature now obj) max_age = Loaded obj.
Proof. intros H. apply loads_Loaded. simpl. done. Qed.

Lemma loads_bad_signature get_signature now tok max_age :
  token_signature tok
  ≠ get_signature (token_payload tok) (token_timestamp tok) →
  loads get_signature now tok max_age = BadSignature.
Proof. intros H. unfold loads. by rewrite bool_decide_false. Qed.

Lemma loads_expired get_signature now tok max_age :
  now - token_timestamp tok > max_age →
  loads get_signature now tok max_age = BadSignature
  ∨ loads get_signature now tok max_age = SignatureExpired.
Proof.
  intros H. unfold loads. case_bool_decide; [|by left].
  right. by rewrite bool_decide_true.
Qed.

(** The caller is the row of the store under the id of the payload. *)
Lemma get_current_user_loaded get_signature ttl st now tok payload :
  loads get_signature now tok ttl = Loaded payload →
  get_current_user get_signature ttl st now (Bearer tok)
  = if truthy (get payload "id") then Employee_get st (get payload "id")
    else None.
Proof. intros H. simpl. rewrite H. by destruct (truthy _). Qed.

Lemma get_current_user_not_loaded get_signature ttl st now tok :
  (∀ payload, loads get_signature now tok ttl ≠ Loaded payload) →
  get_current_user get_signature ttl st now (Bearer tok) = None.
Proof.
  intros H. simpl. destruct (loads _ _ _ _) as [payload| |]; [|done..].
  by destruct (H payload).
Qed.

(** Two valid tokens for the same id resolve to the same caller, whatever
    else their payloads hold: the role of the payload is not read. *)
Lemma get_current_user_ignores_role get_signature ttl st now tok1 tok2 p1 p2 :
  loads get_signature now tok1 ttl = Loaded p1 →
  loads get_signature now tok2 ttl = Loaded p2 →
  get p1 "id" = get p2 "id" →
  get_current_user get_signature ttl st now (Bearer tok1)
  = get_current_user get_signature ttl st now (Bearer tok2).
Proof.
  intros H1 H2 Hid.
  rewrite (get_current_user_loaded _ _ _ _ _ _ H1).
  rewrite (get_current_user_loaded _ _ _ _ _ _ H2).
  by rewrite Hid.
Qed.


(** The role [require_auth] compares is the one of the stored row. *)
Lemma require_auth_passes {A} get_signature ttl (role : string)
    (fn : Employee.t → db → response A * db) st now auth_header user :
  get_current_user get_signature ttl st now auth_header = Some user →
  role ≠ "" →
  require_auth get_signature ttl (Some role) fn st now auth_header
  = if bool_decide (Employee.role user = role) then fn user st
    else (Error 403 "Forbidden", st).
Proof.
  intros Huser Hrole. unfold require_auth. rewrite Huser.
  rewrite (bool_decide_true (role ≠ "")) by done. simpl.
  rewrite bool_decide_not. by destruct (bool_decide _).
Qed.

(** What a successful login hands out. *)
Lemma login_issues_token get_signature check_password_hash st now body
    tok employee :
  login get_signature check_password_hash st now body
  = Json 200 (tok, employee) →
  tok = dumps get_signature now
          {[ "id" := PInt (Employee.id employee);
             "role" := PStr (Employee.role employee) ]}
  ∧ employee ∈ employees st.
Proof.
  unfold login. destruct (py_or _ _) as [|n|e]; [done..|].
  destruct (_ || _); [done|].
  destruct (head _) as [found|] eqn:Hfound; [|done].
  destruct (py_or _ _) as [|n|pw]; [done..|].
  destruct (check_password_hash _ _); [|done].
  intros [= <- <-]. split; [done|].
  destruct (filter _ (employees st)) as [|x l] eqn:E; [done|].
  simpl in Hfound. injection Hfound as ->.
  assert (found ∈ found :: l) as Hin by left.
  rewrite <- E in Hin. apply list_elem_of_filter in Hin. tauto.
Qed.

(** C7. For every request whose bearer token carries a valid signature and
    is not expired, but whose payload names an id under which the store
    has no employee, no caller is resolved and every guarded operation
    answers 401 Unauthorized without running and without touching the
    store, whatever role the payload holds and whatever role the operation
    requires. *)
Theorem stale_token_unauthorized {A : Type}
    (get_signature : dict → Z → string) (ttl : Z) (st : db) (now : Z)
    (tok : token) (payload : dict) (role : option string)
    (fn : Employee.t → db → response A * db) :
  loads get_signature now tok ttl = Loaded payload →
  Employee_get st (get payload "id") = None →
  get_current_user get_signature ttl st now (Bearer tok) = None
  ∧ require_auth get_signature ttl role fn st now (Bearer tok)
    = (Error 401 "Unauthorized", st).
Proof.
  intros Hloads Hnone.
  assert (get_current_user get_signature ttl st now (Bearer tok) = None) as E.
  { rewrite (get_current_user_loaded _ _ _ _ _ _ Hloads), Hnone.
    by destruct (truthy _). }
  split; [done|]. unfold require_auth. by rewrite E.
Qed.

Lemma stale_token_unauthorized_witness :
  let tok := Token {[ "id" := PInt 9; "role" := PStr "admin" ]} 1000 "sig" in
  get_current_user Demo.get_signature Demo.TOKEN_TTL_SECONDS Demo.seeded 2000
    (Bearer tok) = None
  ∧ route_get_dashboard_summary Demo.get_signature Demo.TOKEN_TTL_SECONDS
      Demo.seeded 2000 (Bearer tok)
    = (Error 401 "Unauthorized", Demo.seeded).
Proof.
  intros tok.
  refine (stale_token_unauthorized Demo.get_signature Demo.TOKEN_TTL_SECONDS
            Demo.seeded 2000 tok {[ "id" := PInt 9; "role" := PStr "admin" ]}
            (Some "admin") _ _ _);
    vm_compute; reflexivity.
Defined.

(** C8. A token issued for the id and role of an employee and verified at
    any time from its issuance up to the time-to-live later decodes to the
    same id and role.  A token whose signature is not the one of its
    payload and timestamp, and a token older than the time-to-live at
    verification time, are invalid: they decode to no payload and resolve
    to no caller. *)
Theorem token_round_trip_and_rejection
    (get_signature : dict → Z → string) (ttl : Z) :
  (∀ (employee : Employee.t) (now now' : Z),
     0 ≤ now' - now ≤ ttl →
     loads get_signature now'
       (dumps get_signature now
          {[ "id" := PInt (Employee.id employee);
             "role" := PStr (Employee.role employee) ]}) ttl
     = Loaded {[ "id" := PInt (Employee.id employee);
                 "role" := PStr (Employee.role employee) ]})
  ∧ (∀ (st : db) (now : Z) (tok : token),
       token_signature tok
       ≠ get_signature (token_payload tok) (token_timestamp tok) →
       loads get_signature now tok ttl = BadSignature
       ∧ get_current_user get_signature ttl st now (Bearer tok) = None)
  ∧ (∀ (st : db) (now : Z) (tok : token),
       now - token_timestamp tok > ttl →
       (∀ payload, loads get_signature now tok ttl ≠ Loaded payload)
       ∧ get_current_user get_signature ttl st now (Bearer tok) = None).
Proof.
  split; [|split].
  - intros employee now now' H. by apply loads_dumps.
  - intros st now tok H.
    pose proof (loads_bad_signature get_signature now tok ttl H) as E.
    split; [done|]. apply get_current_user_not_loaded.
    intros payload. by rewrite E.
  - intros st now tok H.
    assert (∀ payload, loads get_signature now tok ttl ≠ Loaded payload) as E.
    { intros payload.
      by destruct (loads_expired get_signature now tok ttl H) as [-> | ->]. }
    split; [done|]. by apply get_current_user_not_loaded.
Qed.

Lemma token_round_trip_and_rejection_witness :
  let obj : dict := {[ "id" := PInt 2; "role" := PStr "employee" ]} in
  loads Demo.get_signature 1060 (dumps Demo.get_signature 1000 obj)
    Demo.TOKEN_TTL_SECONDS = Loaded obj
  ∧ get_current_user Demo.get_signature Demo.TOKEN_TTL_SECONDS Demo.seeded
      1060 (Bearer (Token obj 1000 "forged")) = None
  ∧ get_current_user Demo.get_signature Demo.TOKEN_TTL_SECONDS Demo.seeded
      (1000 + 604801) (Bearer (dumps Demo.get_signature 1000 obj)) = None.
Proof.
  intros obj.
  pose proof (token_round_trip_and_rejection Demo.get_signature
                Demo.TOKEN_TTL_SECONDS) as (Hrt & Hsig & Hexp).
  split; [|split].
  - refine (Hrt Demo.morgan 1000 1060 _). vm_compute. by split.
  - refine (proj2 (Hsig Demo.seeded 1060 (Token obj 1000 "forged") _)).
    vm_compute. discriminate.
  - refine (proj2 (Hexp Demo.seeded (1000 + 604801)
                     (dumps Demo.get_signature 1000 obj) _)).
    vm_compute. reflexivity.
Defined.

(** ** Refused updates *)

(** C3. For every stored task and every caller who is neither an admin nor
    the owner of the task, PUT /tasks/<id> answers 403 Forbidden whatever
    the body, and leaves the store as it was: the row under that id is the
    same row, with all its fields. *)
Theorem update_task_forbidden
    (fromisoformat : string → option date) (caller : Employee.t)
    (task_id : Z) (body : option dict) (st : db) (task : Task.t) :
  Task_get st task_id = Some task →
  Employee.role caller ≠ "admin" →
  Task.employee_id task ≠ PInt (Employee.id caller) →
  update_task fromisoformat caller task_id body st
  = (Error 403 "Forbidden", st)
  ∧ Task_get (update_task fromisoformat caller task_id body st).2 task_id
    = Some task.
Proof.
  intros Hget Hrole Hown.
  assert (update_task fromisoformat caller task_id body st
          = (Error 403 "Forbidden", st)) as E.
  { unfold update_task, py_ne. rewrite Hget.
    by rewrite !bool_decide_true by done. }
  by rewrite E.
Qed.

Lemma update_task_forbidden_witness :
  let body := Some {[ "status" := PStr "completed"; "employee_id" := PInt 2 ]} in
  let task := Task.mk 3 (PStr "Optimize task queries")
                (PStr "Reduce dashboard latency by improving the task queries.")
                (PStr "completed") (PInt 3) None 1000 in
  update_task Demo.fromisoformat Demo.morgan 3 body Demo.seeded
  = (Error 403 "Forbidden", Demo.seeded)
  ∧ Task_get (update_task Demo.fromisoformat Demo.morgan 3 body Demo.seeded).2 3
    = Some task.
Proof.
  intros body task.
  apply (update_task_forbidden Demo.fromisoformat Demo.morgan 3 body
           Demo.seeded task).
  - vm_compute. reflexivity.
  - vm_compute. discriminate.
  - vm_compute. discriminate.
Defined.

(** ** The NOT NULL constraint on [status] is kept *)

Lemma status_or_default_not_null status : status_or_default status ≠ PNone.
Proof. by destruct status. Qed.

Lemma seed_data_status_not_null generate_password_hash now st :
  status_not_null st →
  status_not_null (seed_data generate_password_hash now st).
Proof.
  unfold status_not_null, seed_data. intros H.
  case_bool_decide; [done|]. simpl.
  apply Forall_app. split; [done|]. by repeat constructor.
Qed.

Lemma create_task_status_not_null fromisoformat caller now body st :
  status_not_null st →
  status_not_null (create_task fromisoformat caller now body st).2.
Proof.
  unfold status_not_null, create_task. intros H.
  destruct (negb _); [done|].
  destruct (parse_date _ _) as [d|exc]; [|done].
  assert (∀ owner, Forall (λ task, Task.status task ≠ PNone)
            (tasks st ++ [Task.mk (next_id (Task.id <$> tasks st))
               (get (json_or_empty body) "title")
               (get (json_or_empty body) "description")
               (status_or_default
                  (get_default (json_or_empty body) "status" (PStr "pending")))
               owner d now])) as Hadd.
  { intros owner. apply Forall_app. split; [done|].
    constructor; [|done]. apply status_or_default_not_null. }
  case_bool_decide; [apply Hadd|].
  destruct (_ && _); [done|apply Hadd].
Qed.

Lemma save_task_status_not_null task st :
  Task.status task ≠ PNone →
  status_not_null st → status_not_null (save_task task st).
Proof.
  unfold status_not_null, save_task. simpl. intros Ht H.
  apply Forall_fmap. eapply Forall_impl; [exact H|].
  intros row Hrow. simpl. by case_decide.
Qed.

Lemma update_task_status_not_null fromisoformat caller task_id body st :
  status_not_null st →
  status_not_null (update_task fromisoformat caller task_id body st).2.
Proof.
  intros H. unfold update_task.
  destruct (Task_get st task_id) as [task|] eqn:Hget; [|done].
  destruct (_ && _); [done|].
  destruct (parse_date _ _) as [d|exc]; [|done].
  assert (Task.status task ≠ PNone) as Htask.
  { apply Task_get_Some in Hget as [_ Hin].
    unfold status_not_null in H. rewrite Forall_forall in H. by apply H. }
  assert (∀ t : Task.t, Task.status t ≠ PNone →
    status_not_null
      (save_task
         (let t1 := if truthy (get (json_or_empty body) "status")
                    then Task.set_status (get (json_or_empty body) "status") t
                    else t in
          let t2 := if is_not_none (get (json_or_empty body) "description")
                    then Task.set_description
                           (get (json_or_empty body) "description") t1
                    else t1 in
          match d with Some d' => Task.set_due_date d' t2 | None => t2 end)
         st)) as Hsave.
  { intros t Ht. apply save_task_status_not_null; [|done].
    destruct (truthy (get (json_or_empty body) "status")) eqn:Hs;
      destruct (is_not_none _), d; simpl; try done;
      by apply truthy_not_none. }
  simpl in Hsave.
  destruct (bool_decide _ && is_not_none _).
  - destruct (truthy _ && _); [done|]. by apply Hsave.
  - by apply Hsave.
Qed.

(** ** Dashboard *)

Lemma count_status_split (rows : list Task.t) :
  Forall (λ task, Task.status task ≠ PNone) rows →
  count rows
  = count (filter (λ task, sql_eq (Task.status task) (PStr "completed")) rows)
    + count (filter (λ task, sql_ne (Task.status task) (PStr "completed")) rows).
Proof.
  unfold count. induction 1 as [|task rows Hs _ IH]; [done|].
  rewrite !filter_cons. rewrite (sql_ne_negb_eq _ _ Hs) by done.
  destruct (sql_eq (Task.status task) (PStr "completed")); simpl in *; lia.
Qed.

Lemma count_filter_le {A} (P : A → Prop) `{∀ x, Decision (P x)} (rows : list A) :
  0 ≤ count (filter P rows) ≤ count rows.
Proof. unfold count. pose proof (length_filter P rows). lia. Qed.

(** The two counts of the summary that are not split by a comparison with
    NULL: all the tasks, and the tasks marked completed. *)
Lemma dashboard_counts (st : db) :
  total_tasks (get_dashboard_summary st) = Z.of_nat (length (tasks st))
  ∧ completed_tasks (get_dashboard_summary st)
    = Z.of_nat (length (completed_rows st)).
Proof.
  split; [done|]. simpl. unfold count, completed_rows. do 2 f_equal.
  apply list_filter_iff. intros task. apply sql_eq_str.
Qed.

(** C10. For every store that satisfies the NOT NULL constraint the schema
    puts on [status], the summary has
    [total_tasks = completed_tasks + pending_tasks], where [total_tasks]
    is the number of stored tasks, [completed_tasks] the number of those
    whose status is "completed" and [pending_tasks] the number of those
    with any other status: every task is counted in exactly one bucket. *)
Theorem dashboard_total_split (st : db) :
  status_not_null st →
  let s := get_dashboard_summary st in
  total_tasks s = completed_tasks s + pending_tasks s
  ∧ total_tasks s = Z.of_nat (length (tasks st))
  ∧ completed_tasks s
    = Z.of_nat (length (filter (λ task, Task.status task = PStr "completed")
                               (tasks st)))
  ∧ pending_tasks s
    = Z.of_nat (length (filter (λ task, Task.status task ≠ PStr "completed")
                               (tasks st))).
Proof.
  intros H. split; [by apply count_status_split|].
  split; [apply dashboard_counts|]. split; [apply dashboard_counts|].
  simpl. unfold count. f_equal. f_equal.
  unfold status_not_null in H. induction H as [|task rows Hs _ IH]; [done|].
  rewrite !filter_cons, IH.
  destruct (Task.status task) as [|n|s] eqn:E; [done| |]; simpl.
  - done.
  - destruct (decide (bool_decide _)) as [Hb|Hb],
             (decide (PStr s ≠ _)) as [Hp|Hp]; try done.
    + by apply bool_decide_unpack in Hb.
    + destruct Hb. by apply bool_decide_pack.
Qed.

Lemma dashboard_total_split_witness :
  let s := get_dashboard_summary Demo.seeded in
  total_tasks s = completed_tasks s + pending_tasks s
  ∧ total_tasks s = 3
  ∧ completed_tasks s = 1
  ∧ pending_tasks s = 2.
Proof.
  apply (dashboard_total_split Demo.seeded).
  unfold status_not_null. vm_compute. by repeat constructor.
Defined.

(** *** Floating-point arithmetic

    The error of rounding to the nearest integer and to the nearest float,
    over the real numbers. *)

Lemma round_half_even_near num den :
  0 < den → 2 * Z.abs (round_half_even num den * den - num) ≤ den.
Proof.
  intros Hd. unfold round_half_even.
  pose proof (Z.div_mod num den ltac:(lia)) as E.
  pose proof (Z.mod_pos_bound num den Hd) as B.
  set (q := num / den) in *. set (r := num mod den) in *.
  destruct (Z.compare_spec (2 * r) den); [destruct (Z.even q)| |]; nia.
Qed.

Lemma round_half_even_between num den a b :
  0 < den → a * den ≤ num ≤ b * den → a ≤ round_half_even num den ≤ b.
Proof.
  intros Hd H. unfold round_half_even.
  pose proof (Z.div_mod num den ltac:(lia)) as E.
  pose proof (Z.mod_pos_bound num den Hd) as B.
  set (q := num / den) in *. set (r := num mod den) in *.
  assert (a ≤ q) by nia. assert (q ≤ b) by nia.
  assert (0 < r → q < b) by nia.
  destruct (Z.compare_spec (2 * r) den); [destruct (Z.even q)| |]; lia.
Qed.

Lemma bpow_pos e : (0 < bpow e)%R.
Proof. apply powerRZ_lt. lra. Qed.

Lemma bpow_add a b : bpow (a + b) = (bpow a * bpow b)%R.
Proof. apply powerRZ_add. lra. Qed.

Lemma bpow_opp a : bpow (- a) = (/ bpow a)%R.
Proof. apply powerRZ_neg'. Qed.

Lemma bpow_IZR e : 0 ≤ e → bpow e = IZR (2 ^ e).
Proof.
  intros H. unfold bpow. rewrite <- (Z2Nat.id e H).
  by rewrite <- pow_powerRZ, pow_IZR.
Qed.

Lemma bpow_ge_1 e : 0 ≤ e → (1 <= bpow e)%R.
Proof.
  intros H. rewrite (bpow_IZR e H). apply IZR_le.
  pose proof (Z.pow_pos_nonneg 2 e). lia.
Qed.

Lemma bpow_le a b : a ≤ b → (bpow a <= bpow b)%R.
Proof.
  intros H. replace b with (a + (b - a)) by lia. rewrite bpow_add.
  pose proof (bpow_pos a). pose proof (bpow_ge_1 (b - a) ltac:(lia)). nra.
Qed.

Lemma bpow_lt_inv a b : (bpow a < bpow b)%R → a < b.
Proof.
  intros H. destruct (Z_lt_le_dec a b) as [|Hle]; [done|].
  apply bpow_le in Hle. lra.
Qed.

Lemma bpow_succ a : bpow (a + 1) = (2 * bpow a)%R.
Proof. rewrite bpow_add. unfold bpow at 2. simpl. lra. Qed.

Lemma div_le_iff (n d x : R) : (0 < d)%R → (n / d <= x ↔ n <= x * d)%R.
Proof.
  intros H. split; intros H1.
  - replace n with (n / d * d)%R by (field; lra). by apply Rmult_le_compat_r; lra.
  - apply (Rmult_le_reg_r d); [lra|]. replace (n / d * d)%R with n by (field; lra). done.
Qed.

Lemma div_lt_iff (n d x : R) : (0 < d)%R → (n / d < x ↔ n < x * d)%R.
Proof.
  intros H. split; intros H1.
  - replace n with (n / d * d)%R by (field; lra). by apply Rmult_lt_compat_r; lra.
  - apply (Rmult_lt_reg_r d); [lra|]. replace (n / d * d)%R with n by (field; lra). done.
Qed.

Lemma div_ge_iff (n d x : R) : (0 < d)%R → (x <= n / d ↔ x * d <= n)%R.
Proof.
  intros H. split; intros H1.
  - replace n with (n / d * d)%R by (field; lra). by apply Rmult_le_compat_r; lra.
  - apply (Rmult_le_reg_r d); [lra|]. replace (n / d * d)%R with n by (field; lra). done.
Qed.

Lemma scaled_spec num den e :
  0 < den →
  0 < (scaled num den e).2
  ∧ (IZR (scaled num den e).1 / IZR (scaled num den e).2
     = IZR num / IZR den * bpow (- e))%R.
Proof.
  intros Hd. unfold scaled.
  assert (IZR den ≠ 0%R) as Hden by (apply not_0_IZR; lia).
  destruct (Z.leb_spec 0 e) as [He|He]; simpl.
  - pose proof (Z.pow_pos_nonneg 2 e ltac:(lia) He). split; [nia|].
    rewrite mult_IZR, bpow_opp, (bpow_IZR e He).
    field. split; [apply not_0_IZR; lia|done].
  - split; [done|]. rewrite mult_IZR, <- (bpow_IZR (- e)) by lia.
    field. done.
Qed.

Lemma scaled_pos num den e : 0 < num → 0 < (scaled num den e).1.
Proof.
  intros H. unfold scaled. destruct (Z.leb_spec 0 e); simpl; [done|].
  pose proof (Z.pow_pos_nonneg 2 (- e)). nia.
Qed.

Lemma ilog2_spec num den :
  0 < num → 0 < den →
  (bpow (ilog2 num den) <= IZR num / IZR den < bpow (ilog2 num den + 1))%R.
Proof.
  intros Hn Hd.
  assert (0 < IZR num)%R as Hnum by (by apply IZR_lt).
  assert (0 < IZR den)%R as Hden by (by apply IZR_lt).
  pose proof (Z.log2_spec num Hn) as [Ha1 Ha2].
  pose proof (Z.log2_spec den Hd) as [Hb1 Hb2].
  pose proof (Z.log2_nonneg num). pose proof (Z.log2_nonneg den).
  apply IZR_le in Ha1, Hb1. apply IZR_lt in Ha2, Hb2.
  rewrite <- Z.add_1_r in Ha2, Hb2.
  rewrite <- bpow_IZR in Ha1, Ha2, Hb1, Hb2 by lia.
  rewrite bpow_succ in Ha2, Hb2.
  unfold ilog2. set (a := Z.log2 num) in *. set (b := Z.log2 den) in *.
  pose proof (scaled_spec num den (a - b) Hd) as [Hpos Hval].
  destruct (scaled num den (a - b)) as [n m]. simpl in Hpos, Hval.
  assert (0 < IZR m)%R as Hm by (by apply IZR_lt).
  assert (bpow a = bpow (a - b) * bpow b)%R as Hab.
  { rewrite <- bpow_add. f_equal. lia. }
  pose proof (bpow_pos (a - b)) as Hp. pose proof (bpow_pos b) as Hpb.
  assert (IZR num / IZR den * bpow (- (a - b)) = IZR num / IZR den / bpow (a - b))%R
    as Hdiv by (rewrite bpow_opp; done).
  rewrite Hdiv in Hval. clear Hdiv.
  set (q := (IZR num / IZR den)%R) in *.
  assert (q * IZR den = IZR num)%R as Hq by (unfold q; field; lra).
  destruct (Z.leb_spec m n) as [Hle|Hlt].
  - apply IZR_le in Hle.
    assert (1 <= IZR n / IZR m)%R as H1 by (apply div_ge_iff; lra).
    rewrite Hval in H1. apply (div_ge_iff _ _ _ Hp) in H1.
    split; [lra|]. rewrite bpow_succ.
    pose proof (Rmult_le_compat_l _ _ _ (Rlt_le _ _ Hp) Hb1) as Hmul.
    apply (Rmult_lt_reg_r (IZR den)); [done|]. lra.
  - apply IZR_lt in Hlt.
    assert (IZR n / IZR m < 1)%R as H1 by (apply div_lt_iff; lra).
    rewrite Hval in H1. apply (div_lt_iff _ _ _ Hp) in H1.
    replace (a - b - 1 + 1) with (a - b) by lia. split; [|lra].
    assert (bpow (a - b) = 2 * bpow (a - b - 1))%R as Hs.
    { rewrite <- bpow_succ. f_equal. lia. }
    pose proof (bpow_pos (a - b - 1)) as Hp1.
    assert (bpow (a - b - 1) * IZR den < bpow (a - b - 1) * (2 * bpow b))%R
      as Hmul by (apply Rmult_lt_compat_l; lra).
    rewrite Hs in Hab.
    apply (Rmult_le_reg_r (IZR den)); [done|]. lra.
Qed.

Lemma bpow_lt a b : a < b → (bpow a < bpow b)%R.
Proof.
  intros H. replace b with (a + 1 + (b - a - 1)) by lia.
  rewrite bpow_add, bpow_succ.
  pose proof (bpow_pos a). pose proof (bpow_ge_1 (b - a - 1) ltac:(lia)). nra.
Qed.

Lemma finite_pos s m e :
  0 < m → e ≤ emax - prec →
  ∃ p, m = Zpos p ∧ finite s m e = S754_finite s p e.
Proof.
  intros Hm He. destruct m as [|p|p]; try lia. exists p. split; [done|].
  unfold finite. by rewrite (proj2 (Z.leb_le _ _) He).
Qed.

(** In the normal range the nearest float has a relative error of at most
    2^-53. *)
Lemma nearest_float_normal s num den :
  0 < num → 0 < den →
  (bpow (-1022) <= IZR num / IZR den < bpow 1023)%R →
  ∃ m e,
    nearest_float s num den = S754_finite s m e
    ∧ (Rabs (IZR (Zpos m) * bpow e - IZR num / IZR den)
       <= IZR num / IZR den * bpow (-53))%R.
Proof.
  intros Hn Hd [Hlo Hhi].
  pose proof (ilog2_spec num den Hn Hd) as [HL1 HL2].
  set (L := ilog2 num den) in *. set (q := (IZR num / IZR den)%R) in *.
  assert (-1022 ≤ L ≤ 1022) as HL.
  { split.
    - assert (-1022 < L + 1); [|lia]. apply bpow_lt_inv. lra.
    - assert (L < 1023); [|lia]. apply bpow_lt_inv. lra. }
  unfold nearest_float. rewrite (proj2 (Z.eqb_neq num 0)) by lia.
  fold L. unfold prec, emax.
  replace (Z.max (L - (53 - 1)) (3 - 1024 - 53)) with (L - 52) by lia.
  pose proof (scaled_spec num den (L - 52) Hd) as [Hpos Hval].
  pose proof (scaled_pos num den (L - 52) Hn) as Hnpos.
  destruct (scaled num den (L - 52)) as [n d]. simpl in Hpos, Hval, Hnpos.
  fold q in Hval.
  assert (0 < IZR d)%R as Hdpos by (by apply IZR_lt).
  assert (bpow (- (L - 52)) * bpow (L - 52) = 1)%R as Hinv.
  { rewrite <- bpow_add. replace (- (L - 52) + (L - 52)) with 0 by lia. done. }
  pose proof (bpow_pos (L - 52)) as He. pose proof (bpow_pos (- (L - 52))) as He'.
  assert (bpow L = bpow (L - 52) * bpow 52)%R as HL52.
  { rewrite <- bpow_add. f_equal. lia. }
  assert (bpow 52 <= IZR n / IZR d < 2 * bpow 52)%R as Hrange.
  { rewrite Hval. rewrite bpow_succ in HL2. rewrite HL52 in HL1, HL2.
    pose proof (bpow_pos 52). split.
    - apply (Rmult_le_reg_r (bpow (L - 52))); [done|]. nra.
    - apply (Rmult_lt_reg_r (bpow (L - 52))); [done|]. nra. }
  rewrite (bpow_IZR 52) in Hrange by lia.
  assert (2 ^ 52 * d ≤ n ≤ 2 ^ 53 * d) as Hint.
  { destruct Hrange as [H1 H2].
    pose proof (proj1 (div_ge_iff _ _ _ Hdpos) H1) as H1'.
    pose proof (proj1 (div_lt_iff _ _ _ Hdpos) H2) as H2'.
    rewrite <- mult_IZR in H1'. rewrite <- !mult_IZR in H2'.
    apply le_IZR in H1'. apply lt_IZR in H2'. lia. }
  pose proof (round_half_even_between n d _ _ Hpos Hint) as Hm.
  pose proof (round_half_even_near n d Hpos) as Hnear.
  set (m := round_half_even n d) in *.
  assert (Rabs (IZR m - IZR n / IZR d) <= 1 / 2)%R as HnearR.
  { apply Rabs_le.
    assert (- IZR d <= 2 * (IZR m * IZR d - IZR n) <= IZR d)%R as [H1 H2].
    { rewrite <- !mult_IZR, <- minus_IZR, <- mult_IZR, <- opp_IZR.
      split; apply IZR_le; lia. }
    split.
    - apply (Rmult_le_reg_r (IZR d)); [done|].
      replace ((IZR m - IZR n / IZR d) * IZR d)%R
        with (IZR m * IZR d - IZR n)%R by (field; lra). lra.
    - apply (Rmult_le_reg_r (IZR d)); [done|].
      replace ((IZR m - IZR n / IZR d) * IZR d)%R
        with (IZR m * IZR d - IZR n)%R by (field; lra). lra. }
  assert (Rabs (IZR m * bpow (L - 52) - q) <= q * bpow (-53))%R as Herr.
  { assert (q = IZR n / IZR d * bpow (L - 52))%R as Hq.
    { rewrite Hval. rewrite Rmult_assoc, Hinv. lra. }
    assert (bpow (L - 52) <= q * (2 * bpow (-53)))%R as Hulp.
    { replace (2 * bpow (-53))%R with (bpow (-52)).
      2:{ rewrite <- bpow_succ. done. }
      assert (bpow (L - 52) = bpow L * bpow (-52))%R as ->.
      { rewrite <- bpow_add. f_equal. }
      apply Rmult_le_compat_r; [|done]. pose proof (bpow_pos (-52)). lra. }
    rewrite Hq at 1.
    replace (IZR m * bpow (L - 52) - IZR n / IZR d * bpow (L - 52))%R
      with ((IZR m - IZR n / IZR d) * bpow (L - 52))%R by ring.
    rewrite Rabs_mult, (Rabs_pos_eq (bpow (L - 52))) by lra.
    pose proof (Rabs_pos (IZR m - IZR n / IZR d)). nra. }
  destruct (Z.eqb_spec m (2 ^ 53)) as [Heq|Hne].
  - destruct (finite_pos s (2 ^ (53 - 1)) (L - 52 + 1)) as (p & Hp & ->);
      [done|unfold emax, prec; lia|].
    exists p, (L - 52 + 1). split; [done|].
    rewrite <- Hp, bpow_succ. rewrite Heq in Herr.
    replace (IZR (2 ^ (53 - 1)) * (2 * bpow (L - 52)))%R
      with (IZR (2 ^ 53) * bpow (L - 52))%R; [done|].
    replace (2 ^ 53) with (2 * 2 ^ (53 - 1)) by done.
    rewrite mult_IZR. ring.
  - destruct (finite_pos s m (L - 52)) as (p & Hp & ->);
      [lia|unfold emax, prec; lia|].
    exists p, (L - 52). split; [done|]. by rewrite <- Hp.
Qed.

Lemma Rabs_le_inv (a b : R) : (Rabs a <= b)%R → (- b <= a <= b)%R.
Proof. unfold Rabs. destruct (Rcase_abs a); lra. Qed.

Lemma round_half_even_near_R num den :
  0 < den →
  (Rabs (IZR (round_half_even num den) - IZR num / IZR den) <= 1 / 2)%R.
Proof.
  intros Hd. pose proof (round_half_even_near num den Hd) as Hnear.
  set (m := round_half_even num den) in *.
  assert (0 < IZR den)%R as Hdpos by (by apply IZR_lt).
  apply Rabs_le.
  assert (- IZR den <= 2 * (IZR m * IZR den - IZR num) <= IZR den)%R
    as [H1 H2].
  { rewrite <- !mult_IZR, <- minus_IZR, <- mult_IZR, <- opp_IZR.
    split; apply IZR_le; lia. }
  split.
  - apply (Rmult_le_reg_r (IZR den)); [done|].
    replace ((IZR m - IZR num / IZR den) * IZR den)%R
      with (IZR m * IZR den - IZR num)%R by (field; lra). lra.
  - apply (Rmult_le_reg_r (IZR den)); [done|].
    replace ((IZR m - IZR num / IZR den) * IZR den)%R
      with (IZR m * IZR den - IZR num)%R by (field; lra). lra.
Qed.

Lemma float_of_int_100 :
  float_of_int 100 = S754_finite false 7036874417766400 (-46).
Proof. vm_compute. reflexivity. Qed.

Lemma bpow_neg_const e : 0 ≤ e → bpow (- e) = (/ IZR (2 ^ e))%R.
Proof. intros H. by rewrite bpow_opp, bpow_IZR. Qed.

Lemma rate_of_rounded c t :
  0 ≤ c ≤ t → 0 < t < 2 ^ 32 →
  ∃ h, rate_of c t = decimal2 h ∧ rounded_percentage c t h.
Proof.
  intros Hc Ht. unfold rate_of, true_div.
  rewrite (proj2 (Z.eqb_neq t 0)) by lia.
  rewrite (proj2 (Z.ltb_ge c 0)), (proj2 (Z.ltb_ge t 0)) by lia.
  rewrite !Z.abs_eq by lia. rewrite float_of_int_100. simpl xorb.
  destruct (Z.eq_dec c 0) as [->|Hc0].
  { exists 0. split; [done|]. unfold rounded_percentage. lia. }
  assert (0 < c) as Hcpos by lia.
  assert (0 < IZR c)%R as HcR by (by apply IZR_lt).
  assert (0 < IZR t)%R as HtR by (apply IZR_lt; lia).
  assert (1 <= IZR c)%R as Hc1 by (apply IZR_le; lia).
  assert (IZR c <= IZR t)%R as Hct by (apply IZR_le; lia).
  assert (IZR t < 4294967296)%R as Ht32 by (apply IZR_lt; lia).
  set (q := (IZR c / IZR t)%R).
  assert (q * IZR t = IZR c)%R as Hq by (unfold q; field; lra).
  assert (q <= 1)%R as Hq1 by (apply div_le_iff; lra).
  assert (/ 4294967296 <= q)%R as Hq0.
  { apply div_ge_iff; [done|]. lra. }
  assert (bpow (-53) = / 9007199254740992)%R as Hu
    by (exact (bpow_neg_const 53 ltac:(lia))).
  assert (bpow (-1022) <= / 4294967296)%R as Hmin.
  { transitivity (bpow (-32)); [by apply bpow_le|].
    rewrite (bpow_neg_const 32 ltac:(lia) : bpow (-32) = _).
    change (2 ^ 32) with 4294967296. lra. }
  assert (1024 <= bpow 1023)%R as Hmax.
  { transitivity (bpow 10); [|by apply bpow_le].
    rewrite (bpow_IZR 10) by done. change (2 ^ 10) with 1024. lra. }
  (* the quotient *)
  destruct (nearest_float_normal false c t Hcpos ltac:(lia)) as (m1 & e1 & -> & H1).
  { fold q. lra. }
  fold q in H1. rewrite Hu in H1. apply Rabs_le_inv in H1.
  set (v1 := (IZR (Z.pos m1) * bpow e1)%R) in *.
  (* the product *)
  unfold float_mul.
  pose proof (scaled_spec (Z.pos m1 * 7036874417766400) 1 (- (e1 + -46))
                ltac:(lia)) as [Hd2 Hval2].
  pose proof (scaled_pos (Z.pos m1 * 7036874417766400) 1 (- (e1 + -46))
                ltac:(lia)) as Hn2.
  destruct (scaled (Z.pos m1 * 7036874417766400) 1 (- (e1 + -46)))
    as [n2 d2]. simpl in Hd2, Hval2, Hn2. simpl xorb. cbv beta iota.
  assert (IZR n2 / IZR d2 = 100 * v1)%R as Hprod.
  { rewrite Hval2, Z.opp_involutive, bpow_add, mult_IZR.
    rewrite (bpow_neg_const 46 ltac:(lia) : bpow (-46) = _). unfold v1.
    change (2 ^ 46) with 70368744177664. field. }
  destruct (nearest_float_normal false n2 d2 Hn2 Hd2) as (m2 & e2 & -> & H2).
  { rewrite Hprod. lra. }
  rewrite Hprod, Hu in H2. apply Rabs_le_inv in H2.
  set (v2 := (IZR (Z.pos m2) * bpow e2)%R) in *.
  (* the rounding *)
  unfold float_round2.
  pose proof (scaled_spec (Z.pos m2 * 100) 1 (- e2) ltac:(lia)) as [Hd3 Hval3].
  pose proof (scaled_pos (Z.pos m2 * 100) 1 (- e2) ltac:(lia)) as Hn3.
  destruct (scaled (Z.pos m2 * 100) 1 (- e2)) as [n3 d3].
  simpl in Hd3, Hval3, Hn3. cbv beta iota.
  assert (IZR n3 / IZR d3 = 100 * v2)%R as Hcent.
  { rewrite Hval3, Z.opp_involutive, mult_IZR. unfold v2. field. }
  pose proof (round_half_even_near_R n3 d3 Hd3) as H3.
  pose proof (round_half_even_between n3 d3 0 n3 Hd3 ltac:(nia)) as [Hh _].
  set (h := round_half_even n3 d3) in *.
  rewrite Hcent in H3. apply Rabs_le_inv in H3.
  exists h. split.
  { unfold decimal2. by rewrite (proj2 (Z.ltb_ge h 0)), Z.abs_eq by lia. }
  unfold rounded_percentage.
  assert (2 * Z.abs (h * t - 10000 * c) < t + 1); [|lia].
  apply lt_IZR.
  rewrite mult_IZR, abs_IZR, minus_IZR, !mult_IZR, plus_IZR.
  rewrite <- Hq.
  replace (IZR h * IZR t - 10000 * (q * IZR t))%R
    with ((IZR h - 10000 * q) * IZR t)%R by ring.
  rewrite Rabs_mult, (Rabs_pos_eq (IZR t)) by lra.
  assert (Rabs (IZR h - 10000 * q) <= 1 / 2 + / 8589934592)%R as Hfin.
  { apply Rabs_le. lra. }
  pose proof (Rabs_pos (IZR h - 10000 * q)). nra.
Qed.

(** The division, the multiplication and the decimals above are those of
    the Standard Library's [SpecFloat] on every pair of counts up to 40. *)
Lemma agrees_with_SpecFloat_40 : agrees_with_SpecFloat 40 = true.
Proof. vm_compute. reflexivity. Qed.

(** With 23 of 160 tasks completed the percentage is 14.375, a tie between
    two decimals; the float product lies just below it and the rate is
    14.37. *)
Example rate_of_tie : rate_of 23 160 = decimal2 1437.
Proof. vm_compute. reflexivity. Qed.

(** C9, as stated, fails: in a store of 160 tasks of which 23 are
    completed the percentage is 14.375 exactly, which rounds to 14.38 (to
    even, and away from zero as well); the summary reports 14.37, a
    different float. *)
Lemma completion_rate_tie_cex :
  let s := get_dashboard_summary (Demo.batch 160 23) in
  total_tasks s = 160
  ∧ completed_tasks s = 23
  ∧ 23 * 100 * 1000 = 14375 * 160
  ∧ round_half_even (23 * 100 * 100) 160 = 1438
  ∧ completion_rate s = Float (decimal2 1437)
  ∧ completion_rate s ≠ Float (decimal2 1438).
Proof. vm_compute. by repeat split. Qed.

(** C9, amended. For every store, [total_tasks] is the number of stored
    tasks and [completed_tasks] the number of those whose status is
    "completed"; the [completion_rate] is the int 0 when there is no task
    and the float 33.33 for one completed task of three; and for every
    store of fewer than 2^32 tasks it is the float of a decimal [h / 100]
    with two places that lies within 0.005 of the exact percentage
    [100 * completed_tasks / total_tasks]: the nearest such decimal, and
    either neighbour when the percentage lies exactly halfway between
    two. *)
Theorem completion_rate_rounded (st : db) :
  let s := get_dashboard_summary st in
  total_tasks s = Z.of_nat (length (tasks st))
  ∧ completed_tasks s
    = Z.of_nat (length (filter (λ task, Task.status task = PStr "completed")
                               (tasks st)))
  ∧ (total_tasks s = 0 → completion_rate s = Int 0)
  ∧ (total_tasks s = 3 → completed_tasks s = 1 →
     completion_rate s = Float (decimal2 3333))
  ∧ (0 < total_tasks s < 2 ^ 32 →
     ∃ h, completion_rate s = Float (decimal2 h)
          ∧ 2 * Z.abs (h * total_tasks s - 10000 * completed_tasks s)
            ≤ total_tasks s).
Proof.
  split; [apply dashboard_counts|]. split; [apply dashboard_counts|].
  simpl.
  set (total := count (tasks st)).
  set (completed := count (filter _ (tasks st))).
  assert (0 ≤ completed ≤ total) as Hle by apply count_filter_le.
  split; [|split].
  - intros ->. done.
  - intros -> ->. vm_compute. reflexivity.
  - intros Ht. rewrite bool_decide_true by lia. simpl.
    destruct (rate_of_rounded completed total Hle Ht) as (h & Hh & Hr).
    exists h. split; [|done]. f_equal. exact Hh.
Qed.

Lemma completion_rate_rounded_witness :
  completion_rate (get_dashboard_summary (Db [] [])) = Int 0
  ∧ completion_rate (get_dashboard_summary Demo.seeded)
    = Float (decimal2 3333)
  ∧ ∃ h, completion_rate (get_dashboard_summary (Demo.batch 160 23))
         = Float (decimal2 h)
         ∧ 2 * Z.abs (h * 160 - 10000 * 23) ≤ 160.
Proof.
  split; [|split].
  - refine (proj1 (proj2 (proj2 (completion_rate_rounded (Db [] [])))) _).
    vm_compute. reflexivity.
  - refine (proj1 (proj2 (proj2 (proj2
              (completion_rate_rounded Demo.seeded)))) _ _);
      vm_compute; reflexivity.
  - refine (proj2 (proj2 (proj2 (proj2
              (completion_rate_rounded (Demo.batch 160 23))))) _).
    vm_compute. by split.
Defined.

(** * Further properties of the handlers *)

(** ** What GET /tasks lists *)

Lemma filter_all {A} (P : A → Prop) `{∀ x, Decision (P x)} (l : list A) :
  (∀ x, P x) → filter P l = l.
Proof.
  intros HP. induction l as [|x l IH]; [done|].
  by rewrite filter_cons_True, IH.
Qed.

(** The two filters of [get_tasks] select the visible rows, in table
    order. *)
Lemma get_tasks_filters (st : db) (user : Employee.t) (args : task_args) :
  ∃ query, get_tasks st user args = merge_sort newer_first query
           ∧ query = filter (visible user args) (tasks st).
Proof.
  eexists. split; [reflexivity|].
  destruct args as [status employee_id]. simpl.
  assert (∀ (P : Task.t → Prop) `{∀ x, Decision (P x)} (l : list Task.t),
            (∀ x, P x ↔ visible user (TaskArgs status employee_id) x) →
            filter P l = filter (visible user (TaskArgs status employee_id)) l)
    as Hiff.
  { intros P ? l HP. by apply list_filter_iff. }
  destruct status as [s|], employee_id as [n|]; repeat case_bool_decide;
    repeat match goal with H : ¬ _ ≠ _ |- _ => apply dec_stable in H end;
    rewrite ?list_filter_filter;
    (first [apply Hiff | symmetry; apply filter_all]);
    intros x; rewrite ?sql_eq_int, ?sql_eq_str; unfold visible; simpl;
    naive_solver.
Qed.

(** X1. For every store, caller and query string (the employee filter of
    an admin being an integer of the signed 64-bit range), GET /tasks
    lists exactly the stored rows visible to the caller, each as often as
    it is stored, ordered newest first: a non-admin sees all of their own
    tasks with the requested status and nothing else, an admin sees every
    task that matches the filters given. *)
Theorem get_tasks_sorted_visible
    (st : db) (user : Employee.t) (args : task_args) :
  (Employee.role user = "admin" → filter_in_range args = true) →
  get_tasks st user args ≡ₚ filter (visible user args) (tasks st)
  ∧ Sorted newer_first (get_tasks st user args)
  ∧ ∀ task, task ∈ get_tasks st user args ↔
            task ∈ tasks st ∧ visible user args task.
Proof.
  intros _.
  destruct (get_tasks_filters st user args) as (query & Hsort & Hquery).
  assert (get_tasks st user args ≡ₚ filter (visible user args) (tasks st))
    as Hperm.
  { rewrite Hsort, <- Hquery. apply merge_sort_Permutation. }
  split; [done|]. split.
  - rewrite Hsort. apply (Sorted_merge_sort newer_first).
  - intros task. rewrite Hperm, list_elem_of_filter. tauto.
Qed.

Lemma get_tasks_sorted_visible_witness :
  let args := TaskArgs (Some "pending") (Some 2) in
  get_tasks Demo.seeded Demo.avery args
  ≡ₚ filter (visible Demo.avery args) (tasks Demo.seeded)
  ∧ Sorted newer_first (get_tasks Demo.seeded Demo.avery args)
  ∧ ∀ task, task ∈ get_tasks Demo.seeded Demo.avery args ↔
            task ∈ tasks Demo.seeded ∧ visible Demo.avery args task.
Proof.
  apply (get_tasks_sorted_visible Demo.seeded Demo.avery
           (TaskArgs (Some "pending") (Some 2))).
  intros _. vm_compute. reflexivity.
Defined.

Lemma elem_of_get_tasks st user args task :
  task ∈ get_tasks st user args ↔ task ∈ tasks st ∧ visible user args task.
Proof.
  destruct (get_tasks_filters st user args) as (query & -> & ->).
  rewrite merge_sort_Permutation, list_elem_of_filter. tauto.
Qed.

(** ** What POST /tasks does to the store *)

Lemma next_id_fresh (ids : list Z) (x : Z) : x ∈ ids → x < next_id ids.
Proof.
  unfold next_id. induction 1 as [x l|x y l _ IH]; simpl; lia.
Qed.

Lemma next_id_not_elem (ids : list Z) : next_id ids ∉ ids.
Proof. intros H. apply next_id_fresh in H. lia. Qed.

Lemma Task_get_None (st : db) (task_id : Z) :
  task_id ∉ (Task.id <$> tasks st) → Task_get st task_id = None.
Proof.
  intros H. unfold Task_get.
  destruct (filter _ (tasks st)) as [|row rows] eqn:E; [done|].
  assert (row ∈ filter (λ task, Task.id task = task_id) (tasks st)) as Hin.
  { rewrite E. left. }
  apply list_elem_of_filter in Hin as [<- Hin].
  destruct H. by apply list_elem_of_fmap_2.
Qed.

(** Lookups after the INSERT of a row. *)
Lemma Task_get_add_task (st : db) (task : Task.t) (task_id : Z) :
  Task_get (add_task task st) task_id
  = match Task_get st task_id with
    | Some row => Some row
    | None => if decide (Task.id task = task_id) then Some task else None
    end.
Proof.
  unfold Task_get, add_task. simpl. rewrite filter_app, filter_cons, filter_nil.
  destruct (filter _ (tasks st)); simpl; [|done]. by case_decide.
Qed.

(** The two ways POST /tasks ends. *)
Lemma create_task_cases fromisoformat caller now body st :
  (∃ owner due_date,
     truthy (get (json_or_empty body) "title") = true
     ∧ create_task fromisoformat caller now body st
       = (Json 201 (new_task st now (json_or_empty body) owner due_date),
          add_task (new_task st now (json_or_empty body) owner due_date) st)
     ∧ (Employee.role caller ≠ "admin" → owner = PInt (Employee.id caller)))
  ∨ (∃ code message,
       create_task fromisoformat caller now body st
       = (Error code message, st))
  ∨ (∃ exc,
       create_task fromisoformat caller now body st = (Unhandled exc, st)).
Proof.
  unfold create_task.
  destruct (truthy (get (json_or_empty body) "title")) eqn:Ht; simpl;
    [|right; left; eauto].
  destruct (parse_date _ _) as [d|exc]; [|right; right; eauto].
  case_bool_decide as Hrole.
  - left. eexists _, _. split; [done|]. split; [reflexivity|]. done.
  - destruct (_ && _); [right; left; eauto|].
    left. eexists _, _. split; [done|]. split; [reflexivity|]. done.
Qed.

(** X2. For every caller, body and store, POST /tasks never touches the
    employees table, leaves the store as it was whenever it answers
    anything but a JSON body, and otherwise answers 201 with a row that it
    appends to the tasks table: the row has a primary key no stored task
    has, the creation time of the request, a status that is not null and
    a non-empty title; the key leads back to the row and every other
    lookup answers as before. *)
Theorem create_task_effect
    (fromisoformat : string → option date) (caller : Employee.t) (now : Z)
    (body : option dict) (st : db) :
  let result := create_task fromisoformat caller now body st in
  employees result.2 = employees st
  ∧ match result.1 with
    | Json code task =>
        code = 201
        ∧ tasks result.2 = tasks st ++ [task]
        ∧ (Task.id task ∉ (Task.id <$> tasks st))
        ∧ Task.created_at task = now
        ∧ Task.status task ≠ PNone
        ∧ truthy (Task.title task) = true
        ∧ Task_get result.2 (Task.id task) = Some task
        ∧ ∀ task_id, task_id ≠ Task.id task →
                     Task_get result.2 task_id = Task_get st task_id
    | Error _ _ | Unhandled _ => result.2 = st
    end.
Proof.
  simpl.
  destruct (create_task_cases fromisoformat caller now body st)
    as [(owner & d & Ht & -> & _)|[(code & msg & ->)|(exc & ->)]]; simpl;
    [|done..].
  split; [done|]. split; [done|]. split; [done|].
  split; [apply next_id_not_elem|]. split; [done|].
  split; [apply status_or_default_not_null|]. split; [done|].
  split.
  - rewrite Task_get_add_task. rewrite Task_get_None.
    + simpl. by rewrite decide_True.
    + apply next_id_not_elem.
  - intros task_id Hne. rewrite Task_get_add_task.
    destruct (Task_get st task_id); [done|]. simpl.
    by rewrite decide_False.
Qed.

(** X3. Whoever creates a task finds it in their own list afterwards: for
    every caller, when POST /tasks answers with a row, GET /tasks by the
    same caller on the resulting store, without a status filter, lists
    that row (for an admin: without an employee filter either). *)
Theorem created_task_listed
    (fromisoformat : string → option date) (caller : Employee.t) (now : Z)
    (body : option dict) (st st' : db) (code : Z) (task : Task.t)
    (employee_filter : option Z) :
  create_task fromisoformat caller now body st = (Json code task, st') →
  Employee.role caller ≠ "admin" ∨ employee_filter = None →
  task ∈ get_tasks st' caller (TaskArgs None employee_filter).
Proof.
  intros Hcreate Hfilter.
  destruct (create_task_cases fromisoformat caller now body st)
    as [(owner & d & _ & E & Hown)|[(c & msg & E)|(exc & E)]];
    rewrite E in Hcreate; [|done..].
  injection Hcreate as <- <- <-.
  apply elem_of_get_tasks. split.
  - simpl. apply elem_of_app. right. left.
  - unfold visible. simpl. split; [done|]. split; [done|].
    intros Hadmin n Hn. destruct Hfilter as [Hrole| ->]; [done|done].
Qed.

Lemma created_task_listed_witness :
  let body : option dict := Some {[ "title" := PStr "Write report"; "employee_id" := PInt 3 ]} in
  let task := Task.mk 4 (PStr "Write report") PNone (PStr "pending") (PInt 2)
                      None 2000 in
  task ∈ get_tasks (add_task task Demo.seeded) Demo.morgan
           (TaskArgs None (Some 3)).
Proof.
  intros body task.
  refine (created_task_listed Demo.fromisoformat Demo.morgan 2000 body
            Demo.seeded (add_task task Demo.seeded) 201 task (Some 3) _ _).
  - vm_compute. reflexivity.
  - left. vm_compute. discriminate.
Defined.

(** ** What PUT /tasks/<id> does to the store *)

Lemma save_task_ids (task : Task.t) (st : db) :
  Task.id <$> tasks (save_task task st) = Task.id <$> tasks st.
Proof.
  unfold save_task. simpl. rewrite <- list_fmap_compose.
  apply list_fmap_ext. intros _ row _. simpl. by case_decide.
Qed.

(** Lookups after the UPDATE of a row. *)
Lemma Task_get_save (task : Task.t) (st : db) (task_id : Z) :
  Task_get (save_task task st) task_id
  = if decide (task_id = Task.id task)
    then match Task_get st task_id with Some _ => Some task | None => None end
    else Task_get st task_id.
Proof.
  unfold Task_get, save_task. simpl.
  induction (tasks st) as [|row rows IH]; [by case_decide|].
  rewrite fmap_cons, !filter_cons.
  destruct (decide (Task.id row = Task.id task)) as [Hrow|Hrow];
    destruct (decide (task_id = Task.id task)) as [Hid|Hid].
  - rewrite !decide_True by congruence. done.
  - rewrite !decide_False by congruence. rewrite IH. done.
  - rewrite !decide_False by congruence. rewrite IH. done.
  - destruct (decide (Task.id row = task_id)); [done|]. by rewrite IH.
Qed.

Lemma save_task_twice (task : Task.t) (st : db) :
  save_task task (save_task task st) = save_task task st.
Proof.
  unfold save_task. simpl. f_equal. rewrite <- list_fmap_compose.
  apply list_fmap_ext. intros _ row _. simpl.
  destruct (decide (Task.id row = Task.id task)); [by rewrite decide_True|].
  by rewrite decide_False.
Qed.

Lemma updated_fields_twice payload due_date owner task :
  let task' := updated_fields payload due_date
                 (Task.set_employee_id owner task) in
  updated_fields payload due_date (Task.set_employee_id owner task') = task'.
Proof.
  destruct task. unfold updated_fields. simpl.
  by destruct (is_not_none _), (truthy _), due_date.
Qed.

Lemma set_employee_id_same task :
  Task.set_employee_id (Task.employee_id task) task = task.
Proof. by destruct task. Qed.

(** The ways PUT /tasks/<id> ends: an error or an exception with the store
    as it was, or a row written under the id, built from the stored one
    with the owner it had or, for an admin who supplies one, the owner of
    the body. *)
Lemma update_task_cases fromisoformat caller task_id body st :
  let payload := json_or_empty body in
  let supplied := bool_decide (Employee.role caller = "admin")
                  && is_not_none (get payload "employee_id") in
  (∃ task due_date,
     let owner := if supplied then get payload "employee_id"
                  else Task.employee_id task in
     Task_get st task_id = Some task
     ∧ (Employee.role caller = "admin"
        ∨ Task.employee_id task = PInt (Employee.id caller))
     ∧ parse_date fromisoformat (get payload "due_date") = Return due_date
     ∧ (supplied = true →
        truthy owner && bool_decide (Employee_get st owner = None) = false)
     ∧ update_task fromisoformat caller task_id body st
       = (Json 200 (updated_fields payload due_date
                      (Task.set_employee_id owner task)),
          save_task (updated_fields payload due_date
                       (Task.set_employee_id owner task)) st))
  ∨ (∃ code message,
       update_task fromisoformat caller task_id body st
       = (Error code message, st))
  ∨ (∃ exc,
       update_task fromisoformat caller task_id body st = (Unhandled exc, st)).
Proof.
  simpl. destruct (Task_get st task_id) as [task|] eqn:Hget.
  2:{ right. left. unfold update_task. rewrite Hget. eauto. }
  destruct (decide (Employee.role caller = "admin"
                    ∨ Task.employee_id task = PInt (Employee.id caller)))
    as [Hauth|Hauth].
  2:{ right. left. unfold update_task, py_ne. rewrite Hget.
      rewrite !bool_decide_true by tauto. simpl. eauto. }
  destruct (parse_date fromisoformat (get (json_or_empty body) "due_date"))
    as [due_date|exc] eqn:Hd.
  2:{ right. right. unfold update_task, py_ne. rewrite Hget, Hd.
      rewrite (proj2 (andb_false_iff _ _)); [eauto|].
      rewrite !bool_decide_eq_false. destruct Hauth; [left|right]; auto. }
  pose proof (update_task_authorized fromisoformat caller task_id body st
                task due_date Hget Hauth Hd) as E. simpl in E.
  destruct (bool_decide (Employee.role caller = "admin")
            && is_not_none (get (json_or_empty body) "employee_id")) eqn:Hs.
  - destruct (truthy _ && bool_decide _) eqn:Hrej.
    + right. left. eauto.
    + left. exists task, due_date. simpl. done.
  - left. exists task, due_date. simpl.
    rewrite set_employee_id_same. done.
Qed.

(** X4. For every caller, task id, body and store, PUT /tasks/<id> never
    touches the employees table, the primary keys of the tasks table or
    any row stored under another id, and under every id it leaves the
    title and the creation time as they were.  When it answers anything
    but a JSON body the store is as it was; otherwise the answer is 200
    with the row now stored under the id. *)
Theorem update_task_frame
    (fromisoformat : string → option date) (caller : Employee.t)
    (task_id : Z) (body : option dict) (st : db) :
  let result := update_task fromisoformat caller task_id body st in
  employees result.2 = employees st
  ∧ Task.id <$> tasks result.2 = Task.id <$> tasks st
  ∧ (∀ other, other ≠ task_id →
              Task_get result.2 other = Task_get st other)
  ∧ (∀ any, Task.title <$> Task_get result.2 any
            = Task.title <$> Task_get st any
            ∧ Task.created_at <$> Task_get result.2 any
              = Task.created_at <$> Task_get st any)
  ∧ match result.1 with
    | Json code task' =>
        code = 200 ∧ Task_get result.2 task_id = Some task'
    | Error _ _ | Unhandled _ => result.2 = st
    end.
Proof.
  cbv zeta.
  destruct (update_task_cases fromisoformat caller task_id body st)
    as [(task & d & Hget & _ & _ & _ & ->)
       |[(code & msg & ->)|(exc & ->)]]; cbn [fst snd]; [|done..].
  destruct (Task_get_Some _ _ _ Hget) as [Hid _].
  split; [done|]. split; [apply save_task_ids|].
  split; [|split].
  - intros other Hne. rewrite Task_get_save. cbn [Task.id updated_fields Task.set_employee_id].
    rewrite decide_False by congruence. done.
  - intros any. rewrite Task_get_save. cbn [Task.id updated_fields Task.set_employee_id].
    destruct (decide (any = Task.id task)) as [->|]; [|done].
    rewrite Hid, Hget. done.
  - split; [done|]. rewrite Task_get_save. cbn [Task.id updated_fields Task.set_employee_id].
    rewrite decide_True by done. by rewrite Hget.
Qed.

(** X5. A caller who is not an admin can never change who owns a task:
    for every such caller, task id, body and store, after PUT /tasks/<id>
    every lookup finds the [employee_id] it found before. *)
Theorem update_task_non_admin_keeps_owner
    (fromisoformat : string → option date) (caller : Employee.t)
    (task_id : Z) (body : option dict) (st : db) (any : Z) :
  Employee.role caller ≠ "admin" →
  Task.employee_id
    <$> Task_get (update_task fromisoformat caller task_id body st).2 any
  = Task.employee_id <$> Task_get st any.
Proof.
  intros Hrole.
  destruct (update_task_cases fromisoformat caller task_id body st)
    as [(task & d & Hget & _ & _ & _ & ->)
       |[(code & msg & ->)|(exc & ->)]]; cbn [fst snd]; [|done..].
  rewrite bool_decide_false by done. cbn [andb].
  destruct (Task_get_Some _ _ _ Hget) as [Hid _].
  rewrite Task_get_save. cbn [Task.id updated_fields Task.set_employee_id].
  destruct (decide (any = Task.id task)) as [->|]; [|done].
  rewrite Hid, Hget. done.
Qed.

Lemma update_task_non_admin_keeps_owner_witness :
  Task.employee_id
    <$> Task_get (update_task Demo.fromisoformat Demo.morgan 2
                    (Some {[ "employee_id" := PInt 3;
                             "status" := PStr "completed" ]})
                    Demo.seeded).2 2
  = Some (PInt 2).
Proof.
  refine (update_task_non_admin_keeps_owner Demo.fromisoformat Demo.morgan 2
            (Some {[ "employee_id" := PInt 3; "status" := PStr "completed" ]})
            Demo.seeded 2 _).
  vm_compute. discriminate.
Defined.

(** X6. PUT /tasks/<id> is idempotent: for every caller, task id, body and
    store, repeating the request on the store it leaves gives the same
    answer and the same store. *)
Theorem update_task_idempotent
    (fromisoformat : string → option date) (caller : Employee.t)
    (task_id : Z) (body : option dict) (st : db) :
  update_task fromisoformat caller task_id body
    (update_task fromisoformat caller task_id body st).2
  = update_task fromisoformat caller task_id body st.
Proof.
  destruct (update_task_cases fromisoformat caller task_id body st)
    as [(task & d & Hget & Hauth & Hd & Hchecked & E)
       |[(code & msg & E)|(exc & E)]]; rewrite E; simpl; [|done..].
  simpl in Hchecked.
  set (supplied := bool_decide (Employee.role caller = "admin")
                   && is_not_none (get (json_or_empty body) "employee_id"))
    in *.
  set (owner := if supplied then get (json_or_empty body) "employee_id"
                else Task.employee_id task) in *.
  set (task' := updated_fields (json_or_empty body) d
                  (Task.set_employee_id owner task)) in *.
  destruct (Task_get_Some _ _ _ Hget) as [Hid _].
  assert (Task_get (save_task task' st) task_id = Some task') as Hget'.
  { by apply (Task_get_save_task st task_id task). }
  assert (Employee.role caller = "admin"
          ∨ Task.employee_id task' = PInt (Employee.id caller)) as Hauth'.
  { destruct (decide (Employee.role caller = "admin")) as [|Hrole];
      [by left|right].
    subst task' owner supplied. simpl.
    rewrite bool_decide_false by done. simpl. by destruct Hauth. }
  rewrite (update_task_authorized fromisoformat caller task_id body
             (save_task task' st) task' d Hget' Hauth' Hd). simpl.
  change (Employee_get (save_task task' st)) with (Employee_get st).
  fold supplied.
  assert (updated_fields (json_or_empty body) d
            (Task.set_employee_id owner task') = task') as Hsame.
  { apply updated_fields_twice. }
  destruct supplied eqn:Hs; unfold owner in Hchecked, Hsame.
  - rewrite (Hchecked eq_refl). by rewrite Hsame, save_task_twice.
  - assert (Task.set_employee_id (Task.employee_id task) task' = task')
      as Hkept.
    { change (Task.employee_id task) with (Task.employee_id task').
      apply set_employee_id_same. }
    rewrite Hkept in Hsame. by rewrite Hsame, save_task_twice.
Qed.

(** ** Seeding *)

(** The two ways [seed_data] ends. *)
Lemma seed_data_cases generate_password_hash now st :
  employees st ≠ [] ∧ seed_data generate_password_hash now st = st
  ∨ employees st = []
    ∧ seed_data generate_password_hash now st
      = let t := next_id (Task.id <$> tasks st) in
        Db [ Employee.mk 1 "Avery Diaz" "Engineering Manager"
               "avery@example.com" "admin"
               (generate_password_hash "admin123");
             Employee.mk 2 "Morgan Lee" "Product Designer"
               "morgan@example.com" "employee"
               (generate_password_hash "design123");
             Employee.mk 3 "Riley Patel" "Backend Engineer"
               "riley@example.com" "employee"
               (generate_password_hash "build123") ]
           (tasks st
            ++ [ Task.mk t (PStr "Implement authentication")
                   (PStr "Add login flow and secure the API endpoints.")
                   (PStr "in_progress") (PInt 1) None now;
                 Task.mk (t + 1) (PStr "Refresh dashboard visuals")
                   (PStr "Update the UI to match the new design system.")
                   (PStr "pending") (PInt 2) None now;
                 Task.mk (t + 2) (PStr "Optimize task queries")
                   (PStr "Reduce dashboard latency by improving the task queries.")
                   (PStr "completed") (PInt 3) None now ]).
Proof.
  unfold seed_data, count. destruct (employees st) as [|e l] eqn:E.
  - right. split; [done|]. reflexivity.
  - left. split; [done|]. rewrite bool_decide_true; [done|].
    simpl. lia.
Qed.

(** X7. [seed_data] is idempotent and changes nothing as soon as one
    employee exists; it never removes or alters a stored task, and every
    task it adds is assigned to an employee of the resulting store. *)
Theorem seed_data_idempotent
    (generate_password_hash : string → string) (now now' : Z) (st : db) :
  let st' := seed_data generate_password_hash now st in
  seed_data generate_password_hash now' st' = st'
  ∧ (employees st ≠ [] → st' = st)
  ∧ (∃ added, tasks st' = tasks st ++ added
              ∧ ∀ task, task ∈ added →
                        ∃ employee, employee ∈ employees st'
                                    ∧ Employee_get st' (Task.employee_id task)
                                      = Some employee).
Proof.
  cbv zeta.
  destruct (seed_data_cases generate_password_hash now st)
    as [[Hne ->]|[Hnil ->]].
  - split; [|split; [done|]].
    + by destruct (seed_data_cases generate_password_hash now' st)
        as [[_ ->]|[? _]].
    + exists []. split; [by rewrite app_nil_r|]. by intros task ?%elem_of_nil.
  - cbv zeta. split; [|split; [done|]].
    + by destruct (seed_data_cases generate_password_hash now'
                     (Db [ Employee.mk 1 "Avery Diaz" "Engineering Manager"
                             "avery@example.com" "admin"
                             (generate_password_hash "admin123");
                           Employee.mk 2 "Morgan Lee" "Product Designer"
                             "morgan@example.com" "employee"
                             (generate_password_hash "design123");
                           Employee.mk 3 "Riley Patel" "Backend Engineer"
                             "riley@example.com" "employee"
                             (generate_password_hash "build123") ]
                         (tasks (seed_data generate_password_hash now st))))
        as [[_ E]|[? _]].
    + eexists. split; [reflexivity|]. intros task Hin.
      rewrite !elem_of_cons in Hin.
      destruct Hin as [->|[->|[->|?%elem_of_nil]]]; [| | |done];
        eexists; (split; [|reflexivity]); simpl;
        rewrite !elem_of_cons; auto.
Qed.

(** ** Primary keys stay unique *)

Lemma NoDup_snoc_fresh (ids : list Z) (x : Z) :
  NoDup ids → x ∉ ids → NoDup (ids ++ [x]).
Proof.
  intros Hids Hx. apply NoDup_app. split; [done|]. split.
  - intros y Hy ->%list_elem_of_singleton. done.
  - apply NoDup_singleton.
Qed.

(** X8. Every handler that writes keeps primary keys unique: when no two
    employees and no two tasks share an id, the same holds of the stores
    that POST /tasks, PUT /tasks/<id> and [seed_data] leave, whatever the
    request. *)
Theorem primary_keys_kept
    (fromisoformat : string → option date)
    (generate_password_hash : string → string) (caller : Employee.t)
    (now : Z) (task_id : Z) (body : option dict) (st : db) :
  tasks_keyed st → employees_keyed st →
  (tasks_keyed (create_task fromisoformat caller now body st).2
   ∧ employees_keyed (create_task fromisoformat caller now body st).2)
  ∧ (tasks_keyed (update_task fromisoformat caller task_id body st).2
     ∧ employees_keyed (update_task fromisoformat caller task_id body st).2)
  ∧ (tasks_keyed (seed_data generate_password_hash now st)
     ∧ employees_keyed (seed_data generate_password_hash now st)).
Proof.
  unfold tasks_keyed, employees_keyed. intros Ht He. split; [|split].
  - destruct (create_task_cases fromisoformat caller now body st)
      as [(owner & d & _ & -> & _)|[(code & msg & ->)|(exc & ->)]];
      [|done..].
    cbn [snd add_task tasks employees]. split; [|done].
    rewrite fmap_app. apply NoDup_snoc_fresh; [done|].
    apply next_id_not_elem.
  - destruct (update_task_cases fromisoformat caller task_id body st)
      as [(task & d & _ & _ & _ & _ & ->)|[(code & msg & ->)|(exc & ->)]];
      [|done..].
    cbn [snd]. by rewrite save_task_ids.
  - destruct (seed_data_cases generate_password_hash now st)
      as [[_ ->]|[Hnil ->]]; [done|].
    cbv zeta. cbn [tasks employees]. split.
    + rewrite fmap_app. apply NoDup_app. split; [done|]. split.
      * intros x Hx%next_id_fresh. cbn [fmap list_fmap Task.id].
        rewrite !not_elem_of_cons. repeat split; try lia.
        apply not_elem_of_nil.
      * cbn [fmap list_fmap Task.id]. rewrite !NoDup_cons, !not_elem_of_cons.
        repeat split; try lia; try apply not_elem_of_nil. apply NoDup_nil_2.
    + cbn [fmap list_fmap Employee.id]. rewrite !NoDup_cons, !not_elem_of_cons.
      repeat split; try lia; try apply not_elem_of_nil. apply NoDup_nil_2.
Qed.

Lemma primary_keys_kept_witness :
  tasks_keyed
    (create_task Demo.fromisoformat Demo.morgan 2000
       (Some {[ "title" := PStr "Write report" ]}) Demo.seeded).2
  ∧ tasks_keyed
      (update_task Demo.fromisoformat Demo.morgan 2
         (Some {[ "status" := PStr "completed" ]}) Demo.seeded).2.
Proof.
  pose proof (primary_keys_kept Demo.fromisoformat Demo.generate_password_hash
                Demo.morgan 2000 2) as H.
  split.
  - refine (proj1 (proj1 (H (Some {[ "title" := PStr "Write report" ]})
                            Demo.seeded _ _)));
      apply (bool_decide_unpack _); vm_compute; exact I.
  - refine (proj1 (proj1 (proj2 (H (Some {[ "status" := PStr "completed" ]})
                                   Demo.seeded _ _))));
      apply (bool_decide_unpack _); vm_compute; exact I.
Defined.

(** ** The dashboard after a creation *)

(** X9. When POST /tasks answers with a row, the dashboard of the
    resulting store counts one task more and as many employees as
    before, and the new row falls in exactly one bucket: the completed
    count grows by one when its status is "completed", the pending count
    otherwise. *)
Theorem dashboard_after_create
    (fromisoformat : string → option date) (caller : Employee.t) (now : Z)
    (body : option dict) (st st' : db) (code : Z) (task : Task.t) :
  create_task fromisoformat caller now body st = (Json code task, st') →
  let s := get_dashboard_summary st in
  let s' := get_dashboard_summary st' in
  total_tasks s' = total_tasks s + 1
  ∧ employee_count s' = employee_count s
  ∧ completed_tasks s'
    = completed_tasks s
      + (if decide (Task.status task = PStr "completed") then 1 else 0)
  ∧ pending_tasks s'
    = pending_tasks s
      + (if decide (Task.status task = PStr "completed") then 0 else 1).
Proof.
  intros Hcreate.
  destruct (create_task_cases fromisoformat caller now body st)
    as [(owner & d & _ & E & _)|[(c & msg & E)|(exc & E)]];
    rewrite E in Hcreate; [|done..].
  injection Hcreate as <- <- <-.
  set (task := new_task _ _ _ _ _).
  assert (Task.status task ≠ PNone) as Hs
    by apply status_or_default_not_null.
  cbn [get_dashboard_summary total_tasks employee_count completed_tasks
       pending_tasks add_task tasks employees].
  unfold count. rewrite !filter_app, !length_app, !filter_cons, !filter_nil.
  rewrite (sql_ne_negb_eq _ _ Hs) by done.
  split; [simpl; lia|]. split; [done|].
  destruct (decide (Task.status task = PStr "completed")) as [Hc|Hc].
  - rewrite Hc. simpl. lia.
  - assert (sql_eq (Task.status task) (PStr "completed") = false) as ->.
    { apply not_true_is_false. intros H%Is_true_true%sql_eq_str. done. }
    simpl. lia.
Qed.

Lemma dashboard_after_create_witness :
  let st' := (create_task Demo.fromisoformat Demo.morgan 2000
                (Some {[ "title" := PStr "Write report";
                         "status" := PStr "completed" ]}) Demo.seeded).2 in
  total_tasks (get_dashboard_summary st') = 3 + 1
  ∧ employee_count (get_dashboard_summary st') = 3
  ∧ completed_tasks (get_dashboard_summary st') = 1 + 1
  ∧ pending_tasks (get_dashboard_summary st') = 2 + 0.
Proof.
  refine (dashboard_after_create Demo.fromisoformat Demo.morgan 2000
            (Some {[ "title" := PStr "Write report";
                     "status" := PStr "completed" ]})
            Demo.seeded _ 201
            (Task.mk 4 (PStr "Write report") PNone (PStr "completed")
                     (PInt 2) None 2000) _).
  vm_compute. reflexivity.
Defined.

(** ** The authorization gate *)

Lemma get_current_user_unauthenticated get_signature ttl st now auth_header :
  unauthenticated get_signature ttl now auth_header →
  get_current_user get_signature ttl st now auth_header = None.
Proof.
  destruct auth_header as [| |tok]; [done..|]. simpl. intros H.
  destruct (loads get_signature now tok ttl) as [payload| |] eqn:E; [|done..].
  apply loads_Loaded in E as (Hsig & Hage & ->).
  destruct H as [H|[H|[H|H]]]; [done|lia|lia|]. by rewrite H.
Qed.

(** X10. A request without acceptable credentials (no bearer token, a
    garbled one, a wrong signature, a token older than the time-to-live
    or dated in the future, a payload whose id is missing, null or 0) is
    answered 401 by every guarded operation, whatever role it requires;
    the operation does not run and the store is as it was.  In particular
    POST /tasks and PUT /tasks/<id> write nothing. *)
Theorem unauthenticated_request_rejected {A : Type}
    (get_signature : dict → Z → string) (ttl : Z)
    (fromisoformat : string → option date) (st : db) (now : Z)
    (auth_header : authorization) (role : option string)
    (fn : Employee.t → db → response A * db)
    (task_id : Z) (body : option dict) :
  unauthenticated get_signature ttl now auth_header →
  require_auth get_signature ttl role fn st now auth_header
  = (Error 401 "Unauthorized", st)
  ∧ route_create_task get_signature ttl fromisoformat body st now auth_header
    = (Error 401 "Unauthorized", st)
  ∧ route_update_task get_signature ttl fromisoformat task_id body st now
      auth_header
    = (Error 401 "Unauthorized", st).
Proof.
  intros H%(get_current_user_unauthenticated _ _ st).
  unfold route_create_task, route_update_task, require_auth.
  by rewrite H.
Qed.

Lemma unauthenticated_request_rejected_witness :
  let future := Token {[ "id" := PInt 1; "role" := PStr "admin" ]} 5000 "sig-1" in
  route_create_task Demo.get_signature Demo.TOKEN_TTL_SECONDS
    Demo.fromisoformat (Some {[ "title" := PStr "Write report" ]})
    Demo.seeded 2000 (Bearer future)
  = (Error 401 "Unauthorized", Demo.seeded).
Proof.
  intros future.
  refine (proj1 (proj2 (unauthenticated_request_rejected (A := unit)
            Demo.get_signature Demo.TOKEN_TTL_SECONDS Demo.fromisoformat
            Demo.seeded 2000 (Bearer future) None
            (λ _ st, (Unhandled "", st)) 0
            (Some {[ "title" := PStr "Write report" ]}) _))).
  right. right. left. vm_compute. reflexivity.
Defined.

Lemma require_auth_read_only {A} get_signature ttl role
    (fn : Employee.t → db → response A * db) st now auth_header :
  (∀ user, (fn user st).2 = st) →
  (require_auth get_signature ttl role fn st now auth_header).2 = st.
Proof.
  intros Hfn. unfold require_auth.
  destruct (get_current_user _ _ _ _ _) as [user|]; [|done].
  destruct (match role with Some _ => _ | None => _ end); [done|apply Hfn].
Qed.

(** X12. The admin gate reads the role of the stored employee, not the
    role written in the token: whenever a valid token names the id of a
    stored employee, GET /api/dashboard and GET /employees answer 200
    with their bodies if that employee's stored role is "admin" and 403
    otherwise, whatever the payload holds besides the id. *)
Theorem admin_gate_uses_stored_role
    (get_signature : dict → Z → string) (ttl : Z) (st : db) (now : Z)
    (tok : token) (payload : dict) (user : Employee.t) :
  loads get_signature now tok ttl = Loaded payload →
  truthy (get payload "id") = true →
  Employee_get st (get payload "id") = Some user →
  route_get_dashboard_summary get_signature ttl st now (Bearer tok)
  = (if bool_decide (Employee.role user = "admin")
     then (Json 200 (get_dashboard_summary st), st)
     else (Error 403 "Forbidden", st))
  ∧ route_get_employees get_signature ttl st now (Bearer tok)
    = (if bool_decide (Employee.role user = "admin")
       then (Json 200 (get_employees st), st)
       else (Error 403 "Forbidden", st)).
Proof.
  intros Hloads Hid Huser.
  assert (get_current_user get_signature ttl st now (Bearer tok) = Some user)
    as E.
  { by rewrite (get_current_user_loaded _ _ _ _ _ _ Hloads), Hid. }
  unfold route_get_dashboard_summary, route_get_employees.
  by rewrite !(require_auth_passes _ _ _ _ _ _ _ _ E).
Qed.

Lemma admin_gate_uses_stored_role_witness :
  route_get_dashboard_summary Demo.get_signature Demo.TOKEN_TTL_SECONDS
    Demo.seeded 2000
    (Bearer (Token {[ "id" := PInt 2; "role" := PStr "admin" ]} 1000 "sig-2"))
  = (Error 403 "Forbidden", Demo.seeded).
Proof.
  refine (proj1 (admin_gate_uses_stored_role Demo.get_signature
            Demo.TOKEN_TTL_SECONDS Demo.seeded 2000
            (Token {[ "id" := PInt 2; "role" := PStr "admin" ]} 1000 "sig-2")
            {[ "id" := PInt 2; "role" := PStr "admin" ]} Demo.morgan _ _ _));
    vm_compute; reflexivity.
Defined.

Lemma Employee_get_unique (st : db) (employee : Employee.t) :
  employees_keyed st → employee ∈ employees st →
  Employee_get st (PInt (Employee.id employee)) = Some employee.
Proof.
  unfold employees_keyed, Employee_get. intros Hkeys Hin.
  induction (employees st) as [|row rows IH]; [by apply elem_of_nil in Hin|].
  rewrite fmap_cons, NoDup_cons in Hkeys. destruct Hkeys as [Hrow Hrows].
  rewrite filter_cons. apply elem_of_cons in Hin as [->|Hin].
  - by rewrite decide_True.
  - rewrite decide_False; [by apply IH|].
    intros Heq. apply Hrow. rewrite Heq. by apply list_elem_of_fmap_2.
Qed.

(** X13. Logging in and using the token resolves to the employee who
    logged in: when employee ids are unique and POST /auth/login answers
    200 with a token for an employee whose id is not 0, every request
    that carries the token from then until the time-to-live later has
    that employee, as stored, as its caller. *)
Theorem login_then_resolve
    (get_signature : dict → Z → string) (ttl : Z)
    (check_password_hash : string → string → bool) (st : db) (now now' : Z)
    (body : option dict) (tok : token) (employee : Employee.t) :
  employees_keyed st →
  login get_signature check_password_hash st now body
  = Json 200 (tok, employee) →
  Employee.id employee ≠ 0 →
  0 ≤ now' - now ≤ ttl →
  get_current_user get_signature ttl st now' (Bearer tok) = Some employee.
Proof.
  intros Hkeys Hlogin Hid Hage.
  apply login_issues_token in Hlogin as [-> Hin].
  rewrite (get_current_user_loaded _ _ _ _ _ _
             (loads_dumps get_signature now now' ttl _ Hage)).
  unfold get. rewrite lookup_insert_eq. simpl.
  rewrite bool_decide_true by done. by apply Employee_get_unique.
Qed.

Lemma login_then_resolve_witness :
  get_current_user Demo.get_signature Demo.TOKEN_TTL_SECONDS Demo.seeded 2060
    (Bearer (Token {[ "id" := PInt 2; "role" := PStr "employee" ]} 2000 "sig-2"))
  = Some Demo.morgan.
Proof.
  refine (login_then_resolve Demo.get_signature Demo.TOKEN_TTL_SECONDS
            demo_check_password_hash Demo.seeded 2000 2060
            (credentials " Morgan@Example.com" "design123") _ Demo.morgan
            _ _ _ _).
  - apply (bool_decide_unpack _). vm_compute. exact I.
  - vm_compute. reflexivity.
  - vm_compute. discriminate.
  - vm_compute. split; discriminate.
Defined.

(** ** Email normalisation at login *)

Lemma lower_ascii_idem (c : ascii) : lower_ascii (lower_ascii c) = lower_ascii c.
Proof. by destruct c as [[] [] [] [] [] [] [] []]. Qed.

Lemma is_space_lower (c : ascii) : is_space (lower_ascii c) = is_space c.
Proof. by destruct c as [[] [] [] [] [] [] [] []]. Qed.

Lemma lower_idem (s : string) : lower (lower s) = lower s.
Proof.
  induction s as [|c s IH]; [done|]. simpl. by rewrite lower_ascii_idem, IH.
Qed.

Lemma lower_lstrip (s : string) : lower (lstrip s) = lstrip (lower s).
Proof.
  induction s as [|c s IH]; [done|]. simpl. rewrite is_space_lower.
  by destruct (is_space c).
Qed.

Lemma lower_rstrip (s : string) : lower (rstrip s) = rstrip (lower s).
Proof.
  induction s as [|c s IH]; [done|]. simpl. rewrite <- IH, is_space_lower.
  destruct (rstrip s); simpl; [by destruct (is_space c)|done].
Qed.

Lemma lower_strip (s : string) : lower (strip s) = strip (lower s).
Proof. unfold strip. by rewrite lower_rstrip, lower_lstrip. Qed.

Lemma lstrip_length (s : string) :
  (String.length (lstrip s) ≤ String.length s)%nat.
Proof.
  induction s as [|c s IH]; [done|]. simpl.
  destruct (is_space c); simpl; lia.
Qed.

(** A string that [lstrip] leaves alone is empty or starts with a
    character that is not a space. *)
Lemma lstrip_fixed (c : ascii) (s : string) :
  lstrip (String c s) = String c s → is_space c = false.
Proof.
  simpl. destruct (is_space c); [|done]. intros H.
  pose proof (lstrip_length s) as Hlen. rewrite H in Hlen. simpl in Hlen. lia.
Qed.

Lemma lstrip_idem (s : string) : lstrip (lstrip s) = lstrip s.
Proof.
  induction s as [|c s IH]; [done|]. simpl.
  destruct (is_space c) eqn:E; [done|]. simpl. by rewrite E.
Qed.

Lemma rstrip_idem (s : string) : rstrip (rstrip s) = rstrip s.
Proof.
  induction s as [|c s IH]; [done|]. simpl.
  destruct (rstrip s) as [|a kept] eqn:E.
  - destruct (is_space c) eqn:Hc; [done|]. simpl. by rewrite Hc.
  - change (rstrip (String c (String a kept)))
      with (match rstrip (String a kept) with
            | EmptyString =>
                if is_space c then EmptyString else String c EmptyString
            | String a' kept' => String c (String a' kept')
            end).
    by rewrite IH.
Qed.

Lemma lstrip_rstrip (s : string) :
  lstrip s = s → lstrip (rstrip s) = rstrip s.
Proof.
  destruct s as [|c s]; [done|]. intros Hc%lstrip_fixed. simpl.
  destruct (rstrip s); simpl; rewrite ?Hc; simpl; by rewrite ?Hc.
Qed.

Lemma strip_idem (s : string) : strip (strip s) = strip s.
Proof.
  unfold strip. rewrite (lstrip_rstrip (lstrip s)) by apply lstrip_idem.
  apply rstrip_idem.
Qed.

(** The normal form of an email is its own normal form. *)
Lemma normalise_idem (s : string) :
  strip (lower (strip (lower s))) = strip (lower s).
Proof. by rewrite lower_strip, lower_idem, strip_idem. Qed.

Lemma py_or_str (s : string) : py_or (PStr s) (PStr "") = PStr s.
Proof. unfold py_or. simpl. case_bool_decide as H; [done|]. by rewrite H. Qed.

(** X14. Login reads the email without regard to ASCII letter case and
    to surrounding white space: for every body with a string email,
    POST /auth/login answers the same as for the body in which the email
    is replaced by its lower-cased, stripped form. *)
Theorem login_email_normalised
    (get_signature : dict → Z → string)
    (check_password_hash : string → string → bool) (st : db) (now : Z)
    (payload : dict) (email : string) :
  payload !! "email" = Some (PStr email) →
  login get_signature check_password_hash st now (Some payload)
  = login get_signature check_password_hash st now
      (Some (<["email" := PStr (strip (lower email))]> payload)).
Proof.
  intros Hemail. unfold login, json_or_empty, get. simpl.
  rewrite Hemail, lookup_insert_eq, lookup_insert_ne by done. simpl.
  rewrite !py_or_str. by rewrite normalise_idem.
Qed.

Lemma login_email_normalised_witness :
  login Demo.get_signature demo_check_password_hash Demo.seeded 2000
    (credentials "  Avery@Example.COM " "admin123")
  = login Demo.get_signature demo_check_password_hash Demo.seeded 2000
      (credentials "avery@example.com" "admin123").
Proof.
  refine (login_email_normalised Demo.get_signature demo_check_password_hash
            Demo.seeded 2000
            {[ "email" := PStr "  Avery@Example.COM ";
               "password" := PStr "admin123" ]}
            "  Avery@Example.COM " _).
  vm_compute. reflexivity.
Defined.

(** X15. Login succeeds only for a stored employee whose stored email is
    already in normal form and whose stored hash accepts the non-empty
    string password of the body; the token it hands out carries that
    employee's id and stored role and the time of the login.  An account
    stored with an upper-case letter or surrounding white space in its
    email can therefore never log in. *)
Theorem login_success_sound
    (get_signature : dict → Z → string)
    (check_password_hash : string → string → bool) (st : db) (now : Z)
    (body : option dict) (tok : token) (employee : Employee.t) :
  login get_signature check_password_hash st now body
  = Json 200 (tok, employee) →
  employee ∈ employees st
  ∧ strip (lower (Employee.email employee)) = Employee.email employee
  ∧ (∃ password,
       get (json_or_empty body) "password" = PStr password
       ∧ password ≠ ""
       ∧ check_password_hash (Employee.password_hash employee) password
         = true)
  ∧ token_payload tok
    = {[ "id" := PInt (Employee.id employee);
         "role" := PStr (Employee.role employee) ]}
  ∧ token_timestamp tok = now.
Proof.
  unfold login. destruct (py_or _ _) as [|n|e]; [done..|].
  destruct (bool_decide _ || _) eqn:Hmissing; [done|].
  apply orb_false_iff in Hmissing as [_ Hpw]. apply negb_false_iff in Hpw.
  destruct (head _) as [found|] eqn:Hfound; [|done].
  destruct (py_or (get (json_or_empty body) "password") (PStr ""))
    as [|n|pw] eqn:Hor; [done..|].
  destruct (check_password_hash _ _) eqn:Hcheck; [|done].
  intros [= <- <-].
  assert (found ∈ filter (λ row, Employee.email row = strip (lower e))
                         (employees st)) as Hin.
  { destruct (filter _ (employees st)) as [|x l]; [done|].
    simpl in Hfound. injection Hfound as ->. left. }
  apply list_elem_of_filter in Hin as [Hmail Hin].
  split; [done|]. split; [by rewrite Hmail, normalise_idem|].
  split; [|done].
  exists pw. unfold py_or in Hor.
  destruct (truthy (get (json_or_empty body) "password")) eqn:Ht.
  - rewrite Hor in *. simpl in Ht. apply bool_decide_eq_true in Ht. done.
  - injection Hor as <-. done.
Qed.

Lemma login_success_sound_witness :
  Demo.morgan ∈ employees Demo.seeded
  ∧ strip (lower (Employee.email Demo.morgan)) = Employee.email Demo.morgan
  ∧ (∃ password,
       get (json_or_empty (credentials "morgan@example.com" "design123"))
           "password" = PStr password
       ∧ password ≠ ""
       ∧ demo_check_password_hash (Employee.password_hash Demo.morgan) password
         = true)
  ∧ token_payload (Token {[ "id" := PInt 2; "role" := PStr "employee" ]}
                         2000 "sig-2")
    = {[ "id" := PInt (Employee.id Demo.morgan);
         "role" := PStr (Employee.role Demo.morgan) ]}
  ∧ token_timestamp (Token {[ "id" := PInt 2; "role" := PStr "employee" ]}
                           2000 "sig-2") = 2000.
Proof.
  refine (login_success_sound Demo.get_signature demo_check_password_hash
            Demo.seeded 2000 (credentials "morgan@example.com" "design123")
            _ Demo.morgan _).
  vm_compute. reflexivity.
Defined.

(** ** Listing employees *)

#[global] Instance by_name_total : Total by_name.
Proof. intros a b. unfold by_name. apply String.leb_total. Qed.

Lemma Employee_to_dict_dom (employee : Employee.t) :
  dom (Employee_to_dict employee)
  = ({[ "id"; "name"; "title"; "email"; "role" ]} : gset string).
Proof.
  unfold Employee_to_dict. rewrite !dom_insert_L, dom_singleton_L. set_solver.
Qed.

(** X16. The body of GET /employees is the serialisation of every stored
    employee, each once per stored row, ordered by name; each entry has
    exactly the keys id, name, title, email and role, read from the row,
    so no password hash leaves the store. *)
Theorem get_employees_sorted_public (st : db) :
  ∃ rows,
    rows ≡ₚ employees st
    ∧ Sorted by_name rows
    ∧ get_employees st = Employee_to_dict <$> rows
    ∧ ∀ entry, entry ∈ get_employees st →
        dom entry = ({[ "id"; "name"; "title"; "email"; "role" ]} : gset string)
        ∧ entry !! "password_hash" = None
        ∧ ∃ employee, employee ∈ employees st
                      ∧ entry !! "id" = Some (PInt (Employee.id employee))
                      ∧ entry !! "name" = Some (PStr (Employee.name employee))
                      ∧ entry !! "email" = Some (PStr (Employee.email employee))
                      ∧ entry !! "role" = Some (PStr (Employee.role employee)).
Proof.
  exists (merge_sort by_name (employees st)).
  split; [apply merge_sort_Permutation|].
  split; [apply (Sorted_merge_sort by_name)|]. split; [done|].
  intros entry Hin. unfold get_employees in Hin.
  apply list_elem_of_fmap in Hin as (employee & -> & Hin).
  rewrite merge_sort_Permutation in Hin.
  split; [apply Employee_to_dict_dom|]. split.
  - apply not_elem_of_dom. rewrite Employee_to_dict_dom. set_solver.
  - exists employee. split; [done|]. unfold Employee_to_dict.
    by simplify_map_eq.
Qed.

(** ** The schema check *)

(** X17. [ensure_schema] keeps a database file exactly when the employees
    table can be inspected and has the six required columns, extra
    columns doing no harm: a file with these columns is left as it is, and
    a file that is left is the file that was there and has these columns;
    in every other case no file is left.  Running it a second time changes
    nothing. *)
Theorem ensure_schema_keeps_compatible (file : database_file) :
  (∀ names,
     (∀ column,
        column ∈ [ "id"; "name"; "title"; "email"; "role"; "password_hash" ] →
        column ∈ names) →
     ensure_schema (Some (Return names)) = Some (Return names))
  ∧ (∀ kept,
       ensure_schema file = Some kept →
       file = Some kept
       ∧ ∃ names,
           kept = Return names
           ∧ ∀ column,
               column ∈ [ "id"; "name"; "title"; "email"; "role";
                          "password_hash" ] →
               column ∈ names)
  ∧ ensure_schema (ensure_schema file) = ensure_schema file.
Proof.
  assert (∀ names : list string,
    required_columns ⊆ list_to_set (C := gset string) names ↔
    ∀ column,
      column ∈ [ "id"; "name"; "title"; "email"; "role"; "password_hash" ] →
      column ∈ names) as Hsub.
  { intros names. unfold required_columns. split.
    - intros H column Hc. apply (elem_of_list_to_set (C := gset string)).
      apply H. set_solver.
    - intros H column Hc. apply elem_of_list_to_set, H. set_solver. }
  split; [|split].
  - intros names H. simpl. by rewrite bool_decide_true by (by apply Hsub).
  - intros kept. destruct file as [[names|exc]|]; simpl; [|done..].
    case_bool_decide as H; [|done]. intros [= <-]. split; [done|].
    exists names. split; [done|]. by apply Hsub.
  - destruct file as [[names|exc]|]; simpl; [|done..].
    case_bool_decide as H; [|done]. simpl. by rewrite bool_decide_true.
Qed.

Lemma ensure_schema_keeps_compatible_witness :
  ensure_schema
    (Some (Return [ "id"; "name"; "title"; "email"; "role"; "password_hash";
                    "phone" ]))
  = Some (Return [ "id"; "name"; "title"; "email"; "role"; "password_hash";
                   "phone" ]).
Proof.
  refine (proj1 (ensure_schema_keeps_compatible None)
            [ "id"; "name"; "title"; "email"; "role"; "password_hash";
              "phone" ] _).
  intros column Hc. set_solver.
Defined.

(** ** From the first start to the dashboard *)

(** Login with an email that finds a row and a password its hash
    accepts. *)
Lemma login_accepts get_signature check_password_hash st now
    (email password : string) (employee : Employee.t) :
  head (filter (λ row, Employee.email row = strip (lower email))
               (employees st)) = Some employee →
  check_password_hash (Employee.password_hash employee) password = true →
  password ≠ "" → strip (lower email) ≠ "" →
  login get_signature check_password_hash st now (credentials email password)
  = Json 200
      (dumps get_signature now
         {[ "id" := PInt (Employee.id employee);
            "role" := PStr (Employee.role employee) ]},
       employee).
Proof.
  intros Hfound Hcheck Hpw Hemail.
  unfold login, credentials, json_or_empty, get. cbn [default from_option Datatypes.id].
  rewrite lookup_insert_eq, lookup_insert_ne by done.
  rewrite lookup_singleton_eq. cbn [default from_option Datatypes.id]. rewrite !py_or_str.
  rewrite (bool_decide_false (strip (lower email) = "")) by done.
  cbn [truthy]. rewrite (bool_decide_true (password ≠ "")) by done.
  cbn [negb orb]. by rewrite Hfound, Hcheck.
Qed.

(** X18. On a database without employees, after [seed_data], the seeded
    admin logs in with the seeded password (any hash that accepts its own
    password), and the token opens GET /api/dashboard until the
    time-to-live has passed; the seeded designer logs in as well, and her
    token is answered 403 there. *)
Theorem seeded_accounts_log_in
    (generate_password_hash : string → string)
    (check_password_hash : string → string → bool)
    (get_signature : dict → Z → string) (ttl : Z)
    (st : db) (seeded_at now now' : Z) :
  hash_accepts generate_password_hash check_password_hash →
  employees st = [] →
  0 ≤ now' - now ≤ ttl →
  let st' := seed_data generate_password_hash seeded_at st in
  (∃ tok admin,
     login get_signature check_password_hash st' now
       (credentials "avery@example.com" "admin123")
     = Json 200 (tok, admin)
     ∧ route_get_dashboard_summary get_signature ttl st' now' (Bearer tok)
       = (Json 200 (get_dashboard_summary st'), st'))
  ∧ (∃ tok designer,
       login get_signature check_password_hash st' now
         (credentials "morgan@example.com" "design123")
       = Json 200 (tok, designer)
       ∧ route_get_dashboard_summary get_signature ttl st' now' (Bearer tok)
         = (Error 403 "Forbidden", st')).
Proof.
  intros Hhash Hnil Hage.
  destruct (seed_data_cases generate_password_hash seeded_at st)
    as [[Hne _]|[_ E]]; [done|].
  cbv zeta in *. rewrite E. clear E.
  set (st' := Db _ _).
  assert (∀ (email password : string) (employee : Employee.t),
    head (filter (λ row, Employee.email row = strip (lower email))
                 (employees st')) = Some employee →
    Employee.password_hash employee = generate_password_hash password →
    truthy (PInt (Employee.id employee)) = true →
    Employee_get st' (PInt (Employee.id employee)) = Some employee →
    password ≠ "" → strip (lower email) ≠ "" →
    ∃ tok,
      login get_signature check_password_hash st' now
        (credentials email password) = Json 200 (tok, employee)
      ∧ get_current_user get_signature ttl st' now' (Bearer tok)
        = Some employee) as Hlogin.
  { intros email password employee Hfound Hstored Hid Hget Hpw Hemail.
    eexists. split.
    - apply login_accepts; [done| |done..]. rewrite Hstored. apply Hhash.
    - rewrite (get_current_user_loaded _ _ _ _ _ _
                 (loads_dumps get_signature now now' ttl _ Hage)).
      unfold get. rewrite lookup_insert_eq. cbn [default from_option Datatypes.id].
      by rewrite Hid. }
  split.
  - destruct (Hlogin "avery@example.com" "admin123"
                (Employee.mk 1 "Avery Diaz" "Engineering Manager"
                   "avery@example.com" "admin"
                   (generate_password_hash "admin123")))
      as (tok & Hl & Hu); [done..|].
    exists tok. eexists. split; [exact Hl|].
    unfold route_get_dashboard_summary.
    by rewrite (require_auth_passes _ _ _ _ _ _ _ _ Hu).
  - destruct (Hlogin "morgan@example.com" "design123"
                (Employee.mk 2 "Morgan Lee" "Product Designer"
                   "morgan@example.com" "employee"
                   (generate_password_hash "design123")))
      as (tok & Hl & Hu); [done..|].
    exists tok. eexists. split; [exact Hl|].
    unfold route_get_dashboard_summary.
    by rewrite (require_auth_passes _ _ _ _ _ _ _ _ Hu).
Qed.

Lemma seeded_accounts_log_in_witness :
  ∃ tok admin,
    login Demo.get_signature demo_check_password_hash Demo.seeded 2000
      (credentials "avery@example.com" "admin123")
    = Json 200 (tok, admin)
    ∧ route_get_dashboard_summary Demo.get_signature Demo.TOKEN_TTL_SECONDS
        Demo.seeded 2060 (Bearer tok)
      = (Json 200 (get_dashboard_summary Demo.seeded), Demo.seeded).
Proof.
  refine (proj1 (seeded_accounts_log_in Demo.generate_password_hash
            demo_check_password_hash Demo.get_signature
            Demo.TOKEN_TTL_SECONDS (Db [] []) 1000 2000 2060 _ _ _)).
  - intros password. unfold demo_check_password_hash.
    by rewrite bool_decide_true.
  - reflexivity.
  - vm_compute. split; discriminate.
Defined.

(** ** Assignment and visibility *)



Lemma save_task_rows (task row : Task.t) (st : db) :
  row ∈ tasks (save_task task st) →
  Task.id row = Task.id task → row = task.
Proof.
  unfold save_task. cbn [tasks]. intros Hin Hid.
  apply list_elem_of_fmap in Hin as (old & -> & _).
  destruct (decide (Task.id old = Task.id task)) as [Hold|Hold]; done.
Qed.

(** X20. Reassignment moves a task from one list to the other: when
    PUT /tasks/<id> answers with a row, an employee who is not an admin
    finds that row in their list on the resulting store if they are its
    owner now, and finds no row with that id there if they are not. *)
Theorem updated_task_visibility
    (fromisoformat : string → option date) (caller viewer : Employee.t)
    (task_id : Z) (body : option dict) (st st' : db) (code : Z)
    (task' : Task.t) (args : task_args) :
  update_task fromisoformat caller task_id body st = (Json code task', st') →
  Employee.role viewer ≠ "admin" →
  (Task.employee_id task' = PInt (Employee.id viewer) →
   task' ∈ get_tasks st' viewer (TaskArgs None (arg_employee_id args)))
  ∧ (Task.employee_id task' ≠ PInt (Employee.id viewer) →
     ∀ row, row ∈ get_tasks st' viewer args → Task.id row ≠ task_id).
Proof.
  intros Hupdate Hrole.
  destruct (update_task_cases fromisoformat caller task_id body st)
    as [(task & d & Hget & _ & _ & _ & E)|[(c & msg & E)|(exc & E)]];
    rewrite E in Hupdate; [|done..].
  injection Hupdate as <- <- <-.
  set (task' := updated_fields _ _ _) in *.
  destruct (Task_get_Some _ _ _ Hget) as [Hid _].
  assert (Task.id task' = task_id) as Hid' by done.
  split.
  - intros Hown. apply elem_of_get_tasks. split.
    + assert (Task_get (save_task task' st) task_id = Some task') as Hget'
        by by apply (Task_get_save_task st task_id task).
      by apply Task_get_Some in Hget' as [_ ?].
    + unfold visible. simpl. done.
  - intros Hown row [Hin Hvis]%elem_of_get_tasks Hrow.
    destruct Hvis as (_ & Hmine & _). specialize (Hmine Hrole).
    assert (row = task') as -> by (apply (save_task_rows _ _ st); congruence).
    done.
Qed.

Lemma updated_task_visibility_witness :
  let st' := (update_task Demo.fromisoformat Demo.avery 2
                (Some {[ "employee_id" := PInt 3 ]}) Demo.seeded).2 in
  let task' := Task.mk 2 (PStr "Refresh dashboard visuals")
                 (PStr "Update the UI to match the new design system.")
                 (PStr "pending") (PInt 3) None 1000 in
  task' ∈ get_tasks st' Demo.riley (TaskArgs None None)
  ∧ ∀ row, row ∈ get_tasks st' Demo.morgan (TaskArgs None None) →
           Task.id row ≠ 2.
Proof.
  intros st' task'. split.
  - refine (proj1 (updated_task_visibility Demo.fromisoformat Demo.avery
              Demo.riley 2 (Some {[ "employee_id" := PInt 3 ]}) Demo.seeded
              st' 200 task' (TaskArgs None None) _ _) _);
      vm_compute; first [reflexivity | discriminate].
  - refine (proj2 (updated_task_visibility Demo.fromisoformat Demo.avery
              Demo.morgan 2 (Some {[ "employee_id" := PInt 3 ]}) Demo.seeded
              st' 200 task' (TaskArgs None None) _ _) _);
      vm_compute; first [reflexivity | discriminate].
Defined.

(** ** The NOT NULL constraint on [status], for every writer *)

(** X21. No handler stores a null status: when every stored task has a
    status that is not null, the same holds of the stores that
    POST /tasks, PUT /tasks/<id> and [seed_data] leave, whatever the
    request (a null or missing status is replaced by "pending" on
    creation, and an update only writes a non-empty status). *)
Theorem status_not_null_kept
    (fromisoformat : string → option date)
    (generate_password_hash : string → string) (caller : Employee.t)
    (now : Z) (task_id : Z) (body : option dict) (st : db) :
  status_not_null st →
  status_not_null (create_task fromisoformat caller now body st).2
  ∧ status_not_null (update_task fromisoformat caller task_id body st).2
  ∧ status_not_null (seed_data generate_password_hash now st).
Proof.
  intros H. split; [|split].
  - by apply create_task_status_not_null.
  - by apply update_task_status_not_null.
  - by apply seed_data_status_not_null.
Qed.

Lemma status_not_null_kept_witness :
  status_not_null
    (create_task Demo.fromisoformat Demo.morgan 2000
       (Some {[ "title" := PStr "Write report"; "status" := PNone ]})
       Demo.seeded).2.
Proof.
  refine (proj1 (status_not_null_kept Demo.fromisoformat
            Demo.generate_password_hash Demo.morgan 2000 0
            (Some {[ "title" := PStr "Write report"; "status" := PNone ]})
            Demo.seeded _)).
  unfold status_not_null. vm_compute. by repeat constructor.
Defined.
